(** * jist: uploading Jupyter notebooks to GitHub gists

    A shallow embedding of [jist.py] and the properties of its
    gist-reference extractor, notebook reader, notebook mutators,
    external-client wrappers and per-file driver.

    Python [str] values are modelled by [string]; a character is an
    [ascii], read as the code point 0..255.  Dictionaries compared with
    [==] are modelled by [gmap], whose equality ignores insertion order.
    The mutators work in place and return their argument; the driver
    rebinds [parsed] to what they return and keeps no other alias, so
    they are modelled as functions to the updated document.  Logging is
    left out. *)

From Stdlib Require Import ZArith Ascii String.
From stdpp Require Import gmap strings list fin_maps.

Local Open Scope Z_scope.

(** ** Regular expressions: the fragment of Python's [re] used by the tool *)

Module Re.

(** Pattern syntax.  [Chr c] is a literal character, [Dot] is [.],
    [CharSet f] is a bracket class, [Opt r] is the greedy [r?],
    [Plus r] the greedy [r+] and [Group n r] is [(?P<n>r)]. *)
Inductive regex : Type :=
| Eps
| Chr (c : ascii)
| Dot
| CharSet (f : ascii → bool)
| Cat (r1 r2 : regex)
| Opt (r : regex)
| Plus (r : regex)
| Group (name : string) (r : regex).

(** A literal word is the concatenation of its characters. *)
Fixpoint lit (w : string) : regex :=
  match w with
  | EmptyString => Eps
  | String c w' => Cat (Chr c) (lit w')
  end.

Definition newline : ascii := "010"%char.

(** [taken s s'] is the text consumed when the matcher moved from the
    suffix [s] to the later suffix [s']. *)
Definition taken (s s' : string) : string :=
  String.substring 0 (String.length s - String.length s') s.

(** Backtracking matcher in continuation-passing style.  [s] is the text
    that remains at the current position, [g] the groups captured so
    far, [k] what remains to be matched.  Alternatives are tried in
    the order [re] tries them: the greedy choice first. *)
Fixpoint rmatch {A : Type} (r : regex) (s : string) (g : gmap string string)
    (k : string → gmap string string → option A) {struct r} : option A :=
  match r with
  | Eps => k s g
  | Chr c =>
      match s with
      | String a s' => if Ascii.eqb a c then k s' g else None
      | EmptyString => None
      end
  | Dot =>
      match s with
      | String a s' => if Ascii.eqb a newline then None else k s' g
      | EmptyString => None
      end
  | CharSet f =>
      match s with
      | String a s' => if f a then k s' g else None
      | EmptyString => None
      end
  | Cat r1 r2 => rmatch r1 s g (λ s1 g1, rmatch r2 s1 g1 k)
  | Opt r1 =>
      match rmatch r1 s g k with
      | Some x => Some x
      | None => k s g
      end
  | Plus r1 =>
      (fix loop (n : nat) (s : string) (g : gmap string string) : option A :=
         rmatch r1 s g (λ s1 g1,
           match n with
           | O => k s1 g1
           | S n' =>
               if (String.length s1 <? String.length s)%nat then
                 match loop n' s1 g1 with
                 | Some x => Some x
                 | None => k s1 g1
                 end
               else k s1 g1
           end)) (String.length s) s g
  | Group name r1 =>
      rmatch r1 s g (λ s1 g1, k s1 (<[name := taken s s1]> g1))
  end.

(** The match object: where the match starts, the matched text
    ([group(0)]) and the named groups. *)
Record Match : Type := mkMatch {
  m_start : nat;
  m_group0 : string;
  m_groups : gmap string string
}.

(** One anchored attempt at the current position. *)
Definition match_here (r : regex) (s : string)
    : option (string * gmap string string) :=
  rmatch r s ∅ (λ s' g, Some (s', g)).

(** [pattern.search]: the leftmost position at which an attempt succeeds. *)
Fixpoint search_from (r : regex) (pos : nat) (s : string) : option Match :=
  match match_here r s with
  | Some (s', g) => Some (mkMatch pos (taken s s') g)
  | None =>
      match s with
      | EmptyString => None
      | String _ s' => search_from r (S pos) s'
      end
  end.

Definition search (r : regex) (text : string) : option Match :=
  search_from r 0 text.

(** [match.group(name)] for a named group. *)
Definition group (m : Match) (name : string) : option string :=
  m_groups m !! name.

End Re.

(** ** The gist-reference extractor *)

Definition in_range (lo hi c : ascii) : bool :=
  (N_of_ascii lo <=? N_of_ascii c)%N && (N_of_ascii c <=? N_of_ascii hi)%N.

(** The class [[a-zA-Z0-9/_-]]. *)
Definition gist_id_char (c : ascii) : bool :=
  in_range "a" "z" c || in_range "A" "Z" c || in_range "0" "9" c
  || Ascii.eqb c "/" || Ascii.eqb c "_" || Ascii.eqb c "-".

(** [re.compile(r"https?://gist.github.com/(?P<GistId>[a-zA-Z0-9/_-]+)")] *)
Definition GIST_PATTERN : Re.regex :=
  Re.Cat (Re.lit "http") (Re.Cat (Re.Opt (Re.Chr "s"))
  (Re.Cat (Re.lit "://gist") (Re.Cat Re.Dot
  (Re.Cat (Re.lit "github") (Re.Cat Re.Dot
  (Re.Cat (Re.lit "com/")
  (Re.Group "GistId" (Re.Plus (Re.CharSet gist_id_char))))))))).

Definition find_gist_id (text : string) : option string :=
  match Re.search GIST_PATTERN text with
  | None => None
  | Some m => Re.group m "GistId"
  end.

Definition find_gist_url (text : string) : option string :=
  match Re.search GIST_PATTERN text with
  | None => None
  | Some m => Some (Re.m_group0 m)
  end.

(** ** Notebook documents *)

(** JSON values that the tool carries around without looking inside. *)
#[local] Set Warnings "-register-all".
Inductive json : Type :=
| JNull
| JBool (b : bool)
| JNum (z : Z)
| JStr (s : string)
| JList (l : list json)
| JDict (d : list (string * json)).
#[local] Set Warnings "register-all".

(** A cell is a dictionary.  The keys the tool reads or assigns are
    fields; an absent key is [None].  [execution_count] distinguishes the
    absent key ([None]) from the key bound to [None] ([Some None]).
    [cell_rest] holds every other key. *)
Record cell : Type := mkCell {
  cell_type : option string;
  source : option string;
  outputs : option (list json);
  execution_count : option (option Z);
  metadata : option (gmap string json);
  cell_rest : gmap string json
}.

(** A notebook: its cell sequence, the [nbformat] key when present, and
    every other key.  These are the documents that carry their cells at
    top level, as format version 4 lays them out; a document without a
    [cells] key (format 3 keeps its cells in worksheets) is not a value
    of this type, and what the tool does on one is not covered. *)
Record notebook : Type := mkNotebook {
  cells : list cell;
  nbformat : option Z;
  nb_rest : gmap string json
}.

(** ** The notebook annotation reader *)

Definition gist_url_from_notebook (nb : notebook) : option string :=
  match cells nb with
  | [] => None
  | head :: _ =>
      if decide (cell_type head = Some "markdown")
      then find_gist_id (default "" (source head))
      else None
  end.

(** ** Paths, command lines and exceptions *)

(** A [pathlib] path: its anchor (root or drive, possibly empty) and its
    components. *)
Record Path : Type := mkPath {
  anchor : string;
  parts : list string
}.

(** [path.name]: the final component, or the empty string. *)
Definition name (p : Path) : string := List.last (parts p) "".

(** An element of an argument vector is a path or a string. *)
Inductive arg : Type :=
| APath (p : Path)
| AStr (s : string).

(** The exceptions of a run: a failed command ([subprocess]), a missing
    module or constructor of [nbformat] ([NbformatError] stands for the
    [KeyError] or [AttributeError] of the lookup), a notebook that cannot
    be read, and the exit of the argument parser. *)
Inductive exn : Type :=
| CalledProcessError (returncode : Z) (cmd : list arg)
    (output : option string) (stderr : option string)
| NbformatError
| FileError
| SystemExit (code : Z).

(** ** Notebook mutators *)

(** [nbformat.versions[v].new_markdown_cell(source=text)] belongs to the
    [nbformat] library.  A [markdown_ctor] is what one call of it does:
    it answers [None] when the library has no such constructor for [v],
    and the call then raises. *)
Definition markdown_ctor : Type := Z → string → option cell.

(** The constructor as [nbformat] provides it.  The library has the
    modules of the format versions 1 to 4 and only that of version 4
    has [new_markdown_cell]; it builds a markdown cell with the given
    source and empty metadata.  [rest] holds the keys the library adds
    on this call besides these: none in its older releases, an [id]
    drawn at random in the newer ones. *)
Definition nbformat_new_markdown_cell (rest : gmap string json)
    : markdown_ctor :=
  λ v src,
    if v =? 4
    then Some {| cell_type := Some "markdown"; source := Some src;
                 outputs := None; execution_count := None;
                 metadata := Some ∅; cell_rest := rest |}
    else None.

Definition prepend_gist_url (new_markdown_cell : markdown_ctor)
    (gist_url : string) (nb : notebook) : exn + notebook :=
  let text := "Rendered at " +:+ gist_url in
  let nbf_version := Z.min 4 (default 4 (nbformat nb)) in
  match new_markdown_cell nbf_version text with
  | None => inl NbformatError
  | Some new_cell =>
      inr {| cells := new_cell :: cells nb;
             nbformat := nbformat nb;
             nb_rest := nb_rest nb |}
  end.

(** [RM_META_FIELDS] is a Python set; it is iterated in some order, and
    [pop_fields_perm] below shows that the order does not matter. *)
Definition RM_META_FIELDS : list string := ["collapsed"; "scrolled"].

(** [for field in fields: metadata.pop(field, None)] *)
Definition pop_fields (fields : list string) (md : gmap string json)
    : gmap string json :=
  foldl (λ m field, delete field m) md fields.

Definition strip_cell (c : cell) : cell :=
  if decide (cell_type c = Some "code") then
    {| cell_type := cell_type c;
       source := source c;
       outputs := Some [];
       execution_count := Some None;
       metadata := pop_fields RM_META_FIELDS <$> metadata c;
       cell_rest := cell_rest c |}
  else c.

Definition strip_outputs (nb : notebook) : notebook :=
  {| cells := strip_cell <$> cells nb;
     nbformat := nbformat nb;
     nb_rest := nb_rest nb |}.

(** ** The world the driver runs in *)

Global Instance Path_eq_dec : EqDecision Path.
Proof. solve_decision. Defined.

Global Instance Path_countable : Countable Path.
Proof.
  apply (inj_countable' (λ p, (anchor p, parts p)) (λ x, mkPath x.1 x.2)).
  by intros [].
Defined.

(** What one run of the external client does: exit status and the two
    streams it writes. *)
Record process : Type := mkProcess {
  p_returncode : Z;
  p_stdout : string;
  p_stderr : string
}.

(** The environment, fixed for a run: where [gh] is found, how the
    external client answers an argument vector given the invocations made
    before it, and the cell constructor of [nbformat].  The constructor
    may draw a random id, so that two calls need not return the same
    cell: what a call does is given by the invocations made before it. *)
Record env : Type := mkEnv {
  which_gh : option Path;
  run_process : list (list arg) → list arg → process;
  new_markdown_cell : list (list arg) → markdown_ctor
}.

(** The mutable world: the notebook files on disk, seen through the
    [nbformat] codec, and the command lines run so far.  A path is
    bound to the document that [nbformat.read] returns for its file, and
    unbound when the read raises (no file, or a file that is not a
    notebook); the codec is taken to read back the document that was
    written. *)
Record world : Type := mkWorld {
  files : gmap Path notebook;
  calls : list (list arg)
}.

(** State and exception monad. *)
Definition M (A : Type) : Type := world → (exn + A) * world.

Definition ret {A} (a : A) : M A := λ w, (inr a, w).
Definition raise {A} (e : exn) : M A := λ w, (inl e, w).
Definition bind {A B} (m : M A) (f : A → M B) : M B :=
  λ w, match m w with
       | (inl e, w') => (inl e, w')
       | (inr a, w') => f a w'
       end.
Definition lift {A} (r : exn + A) : M A :=
  match r with inl e => raise e | inr a => ret a end.

Global Instance M_ret : MRet M := @ret.
Global Instance M_bind : MBind M := λ A B f m, bind m f.

(** [nbformat.read(path, NO_CONVERT)] and [nbformat.write(nb, path)].
    [FileError] stands for whatever exception the read raises. *)
Definition nbformat_read (path : Path) : M notebook :=
  λ w, match files w !! path with
       | Some nb => (inr nb, w)
       | None => (inl FileError, w)
       end.

Definition nbformat_write (nb : notebook) (path : Path) : M unit :=
  λ w, (inr tt, {| files := <[path := nb]> (files w); calls := calls w |}).

(** The command lines run so far. *)
Definition get_calls : M (list (list arg)) := λ w, (inr (calls w), w).

(** ** The external client invoker *)

Record CompletedProcess : Type := mkCompleted {
  cp_args : list arg;
  cp_returncode : Z;
  cp_stdout : option string;
  cp_stderr : option string
}.

(** [subprocess.run(args, check=…, stdout=…, stderr=…, text=True)]: a
    stream is captured only when it is piped; with [check] a non-zero
    exit status raises [CalledProcessError] with the captured streams. *)
Definition subprocess_run (E : env) (args : list arg)
    (check stdout_pipe stderr_pipe : bool) : M CompletedProcess :=
  λ w,
    let p := run_process E (calls w) args in
    let w' := {| files := files w; calls := calls w ++ [args] |} in
    let out := if stdout_pipe then Some (p_stdout p) else None in
    let err := if stderr_pipe then Some (p_stderr p) else None in
    if check && negb (p_returncode p =? 0)
    then (inl (CalledProcessError (p_returncode p) args out err), w')
    else (inr (mkCompleted args (p_returncode p) out err), w').

Definition update_gist_file (E : env) (gh_exe : Path) (gist_id : string)
    (file : Path) : M CompletedProcess :=
  let args := [APath gh_exe; AStr "gist"; AStr "edit"; AStr gist_id;
               AStr "-f"; APath file; AStr (name file)] in
  subprocess_run E args true true false.

(** [str.isspace] on the code points 0..255. *)
Definition isspace (c : ascii) : bool :=
  let n := N_of_ascii c in
  ((9 <=? n) && (n <=? 13) || (28 <=? n) && (n <=? 32)
   || (n =? 133) || (n =? 160))%N.

Fixpoint lstrip (s : string) : string :=
  match s with
  | String c s' => if isspace c then lstrip s' else s
  | EmptyString => EmptyString
  end.

(** [str.strip()] *)
Definition strip (s : string) : string :=
  String.rev (lstrip (String.rev (lstrip s))).

Definition create_gist (E : env) (gh_exe : Path) (files : list Path)
    : M (option string) :=
  let args := [APath gh_exe; AStr "gist"; AStr "create"] ++ (APath <$> files) in
  proc ← subprocess_run E args true true false;
  ret (find_gist_id (strip (default "" (cp_stdout proc)))).

(** ** The per-file driver *)

(** The loop body of [main] for one notebook path.  A non-empty
    reference is the only truthy value of an [Optional[str]]. *)
Definition process_notebook (E : env) (GH : Path) (then_clear : bool)
    (notebook : Path) : M unit :=
  parsed ← nbformat_read notebook;
  branch ←
    match gist_url_from_notebook parsed with
    | Some (String _ _ as gist_id) =>
        let gist_url := "https://gist.github.com/" +:+ gist_id in
        update_gist_file E GH gist_url notebook;;
        ret (Some parsed)
    | _ =>
        created ← create_gist E GH [notebook];
        match created with
        | Some (String _ _ as gist_id) =>
            let gist_url := "https://gist.github.com/" +:+ gist_id in
            before ← get_calls;
            parsed' ← lift (prepend_gist_url (new_markdown_cell E before)
                              gist_url parsed);
            ret (Some parsed')
        | _ => ret None
        end
    end;
  match branch with
  | None => ret tt
  | Some parsed =>
      let parsed := if then_clear then strip_outputs parsed else parsed in
      nbformat_write parsed notebook
  end.

Fixpoint for_each (body : Path → M unit) (notebooks : list Path) : M unit :=
  match notebooks with
  | [] => ret tt
  | nb :: rest => body nb;; for_each body rest
  end.

(** [main(args)] with [args.then_clear] and [args.notebook]. *)
Definition main (E : env) (then_clear : bool) (notebooks : list Path) : M unit :=
  match which_gh E with
  | None => raise (SystemExit 2)
  | Some GH => for_each (process_notebook E GH then_clear) notebooks
  end.

(** ** Vocabulary of the statements *)

(** [strip_prefix w s] removes the word [w] from the front of [s]. *)
Fixpoint strip_prefix (w s : string) : option string :=
  match w with
  | EmptyString => Some s
  | String c w' =>
      match s with
      | String a s' => if Ascii.eqb a c then strip_prefix w' s' else None
      | EmptyString => None
      end
  end.

Fixpoint all_chars (f : ascii → bool) (s : string) : bool :=
  match s with
  | EmptyString => true
  | String c s' => f c && all_chars f s'
  end.

Definition starts_with (f : ascii → bool) (s : string) : bool :=
  match s with
  | EmptyString => false
  | String c _ => f c
  end.

Fixpoint drop_while (f : ascii → bool) (s : string) : string :=
  match s with
  | String c s' => if f c then drop_while f s' else s
  | EmptyString => EmptyString
  end.

Fixpoint take_while (f : ascii → bool) (s : string) : string :=
  match s with
  | String c s' => if f c then String c (take_while f s') else EmptyString
  | EmptyString => EmptyString
  end.

(** Some suffix of [s] satisfies [P]. *)
Fixpoint some_suffix (P : string → bool) (s : string) : bool :=
  P s || match s with
         | EmptyString => false
         | String _ s' => some_suffix P s'
         end.

(** The word [w] occurs in [text]. *)
Definition contains (w text : string) : bool :=
  some_suffix (λ s, bool_decide (is_Some (strip_prefix w s))) text.

(** A gist path: one or more characters of the class. *)
Definition gist_path (p : string) : Prop :=
  p ≠ "" ∧ all_chars gist_id_char p = true.

(** [s] begins with an occurrence of the pattern as it is written: the
    scheme with or without [s], the two separators any character but a
    newline, then the longest run [p] of path characters, followed by
    [rest]. *)
Definition pattern_here (s p rest : string) : Prop :=
  ∃ scheme c1 c2,
    (scheme = "http" ∨ scheme = "https") ∧
    c1 ≠ Re.newline ∧ c2 ≠ Re.newline ∧
    s = scheme +:+ "://gist" +:+ String c1 ("github" +:+
          String c2 ("com/" +:+ p +:+ rest)) ∧
    gist_path p ∧ starts_with gist_id_char rest = false.

(** [s] begins with a gist URL, [http] or [https], on [gist.github.com],
    with the longest path [p], followed by [rest]. *)
Definition gist_url_here (s p rest : string) : Prop :=
  ∃ scheme,
    (scheme = "http" ∨ scheme = "https") ∧
    s = scheme +:+ "://gist.github.com/" +:+ p +:+ rest ∧
    gist_path p ∧ starts_with gist_id_char rest = false.

(** The leftmost gist URL of [text] carries the path [p]. *)
Definition first_gist_url (text p : string) : Prop :=
  ∃ pre s rest,
    text = pre +:+ s ∧ gist_url_here s p rest ∧
    ∀ pre' s' p' rest',
      text = pre' +:+ s' → gist_url_here s' p' rest' →
      (String.length pre ≤ String.length pre')%nat.

Definition has_gist_url (text : string) : Prop :=
  ∃ pre s p rest, text = pre +:+ s ∧ gist_url_here s p rest.

(** The shape the specification gives: [https://gist.<host>/<path>]
    occurs in [text] with the path [p]. *)
Definition spec_gist_url_in (text p : string) : Prop :=
  ∃ pre host post,
    text = pre +:+ "https://gist." +:+ host +:+ "/" +:+ p +:+ post ∧
    gist_path p.

(** Wherever [text] spells the host of the pattern, the two separators
    are dots. *)
Definition dots_literal (text : string) : Prop :=
  ∀ pre c1 c2 post,
    text = pre +:+ "://gist" +:+ String c1 ("github" +:+
             String c2 ("com/" +:+ post)) →
    c1 = "."%char ∧ c2 = "."%char.

Definition dots_literal_here (s : string) : bool :=
  match strip_prefix "://gist" s with
  | Some (String c1 r1) =>
      match strip_prefix "github" r1 with
      | Some (String c2 r2) =>
          match strip_prefix "com/" r2 with
          | Some _ => negb (Ascii.eqb c1 "." && Ascii.eqb c2 ".")
          | None => false
          end
      | _ => false
      end
  | _ => false
  end.

(** Executable form of [dots_literal]. *)
Definition dots_literalb (text : string) : bool :=
  negb (some_suffix dots_literal_here text).

(** The truth value Python gives an [Optional[str]]. *)
Definition truthy (o : option string) : bool :=
  match o with
  | Some (String _ _) => true
  | _ => false
  end.

(** The pattern after the scheme. *)
Definition GIST_TAIL : Re.regex :=
  Re.Cat (Re.lit "://gist") (Re.Cat Re.Dot
  (Re.Cat (Re.lit "github") (Re.Cat Re.Dot
  (Re.Cat (Re.lit "com/")
  (Re.Group "GistId" (Re.Plus (Re.CharSet gist_id_char))))))).

(** The loop that [Re.rmatch] runs for [Plus (CharSet f)]. *)
Definition plus_loop {A} (f : ascii → bool)
    (k : string → gmap string string → option A) :=
  fix loop (n : nat) (s : string) (g : gmap string string) : option A :=
    Re.rmatch (Re.CharSet f) s g (λ s1 g1,
      match n with
      | O => k s1 g1
      | S n' =>
          if (String.length s1 <? String.length s)%nat then
            match loop n' s1 g1 with
            | Some x => Some x
            | None => k s1 g1
            end
          else k s1 g1
      end).

(** The leftmost occurrence of the pattern in [text] carries [p]. *)
Definition first_pattern (text p : string) : Prop :=
  ∃ pre s rest,
    text = pre +:+ s ∧ pattern_here s p rest ∧
    ∀ pre' s' p' rest',
      text = pre' +:+ s' → pattern_here s' p' rest' →
      (String.length pre ≤ String.length pre')%nat.

(** ** What is assumed of [nbformat] *)

(** What the tool relies on from [nbformat]: the constructor yields a
    cell of markdown kind with the source it was given. *)
Definition markdown_ctor_ok (mk : markdown_ctor) : Prop :=
  ∀ v src c, mk v src = Some c →
    cell_type c = Some "markdown" ∧ source c = Some src.

(** The constructor of [nbformat] when it adds no key of its own. *)
Definition v4_new_markdown_cell : markdown_ctor :=
  nbformat_new_markdown_cell ∅.

(** ** Observations on exceptions and worlds *)

Definition exn_stderr (e : exn) : option string :=
  match e with
  | CalledProcessError _ _ _ err => err
  | _ => None
  end.

(** The world after one more invocation of the client. *)
Definition called (w : world) (args : list arg) : world :=
  {| files := files w; calls := calls w ++ [args] |}.

(** ** Sample runs *)

Definition gh_path : Path := mkPath "/" ["usr"; "bin"; "gh"].
Definition demo_path : Path := mkPath "" ["notes"; "demo.ipynb"].

(** An environment whose client always behaves as [p]. *)
Definition sample_env (p : process) : env :=
  mkEnv (Some gh_path) (λ _ _, p) (λ _, v4_new_markdown_cell).

Definition announced_nb : notebook :=
  {| cells := [mkCell (Some "markdown")
                 (Some "Rendered at https://gist.github.com/abc123")
                 None None (Some ∅) ∅;
               mkCell (Some "code") (Some "1 + 1") (Some [JNum 2])
                 (Some (Some 1)) (Some ∅) ∅];
     nbformat := Some 4; nb_rest := ∅ |}.

Definition fresh_nb : notebook :=
  {| cells := [mkCell (Some "code") (Some "1 + 1") (Some [JNum 2])
                 (Some (Some 1)) (Some ∅) ∅];
     nbformat := Some 4; nb_rest := ∅ |}.

Definition sample_world (nb : notebook) : world :=
  {| files := {[demo_path := nb]}; calls := [] |}.

(** ** Vocabulary of the further properties *)

(** The text the pattern matches before the path: the scheme, the host
    with its two separators, and the slash. *)
Definition url_prefix (scheme : string) (c1 c2 : ascii) : string :=
  scheme +:+ "://gist" +:+ String c1 ("github" +:+ String c2 "com/").

Definition pattern_prefix (u : string) : Prop :=
  ∃ scheme c1 c2,
    (scheme = "http" ∨ scheme = "https") ∧
    c1 ≠ Re.newline ∧ c2 ≠ Re.newline ∧
    u = url_prefix scheme c1 c2.

(** A cell on which stripping has nothing left to do. *)
Definition clean_cell (c : cell) : Prop :=
  cell_type c = Some "code" →
  outputs c = Some [] ∧ execution_count c = Some None ∧
  ∀ md, metadata c = Some md →
    md !! "collapsed" = None ∧ md !! "scrolled" = None.

(** The two command lines of the tool. *)
Definition create_command (GH path : Path) : list arg :=
  [APath GH; AStr "gist"; AStr "create"; APath path].

Definition edit_command (GH : Path) (ref : string) (path : Path) : list arg :=
  [APath GH; AStr "gist"; AStr "edit";
   AStr ("https://gist.github.com/" +:+ ref);
   AStr "-f"; APath path; AStr (name path)].

(** [args] is the command of the tool on the notebook at [path]: the
    creation of a gist, or the edit of the gist of some reference. *)
Definition command_for (GH path : Path) (args : list arg) : Prop :=
  args = create_command GH path ∨
  ∃ ref, gist_path ref ∧ args = edit_command GH ref path.

(** [c] is a cell that [nbformat] constructs, at some point of a run in
    [E], to announce a gist on a notebook that declares the version [v]. *)
Definition announcement (E : env) (v : option Z) (c : cell) : Prop :=
  ∃ before id,
    gist_path id ∧
    new_markdown_cell E before (Z.min 4 (default 4 v))
      ("Rendered at " +:+ "https://gist.github.com/" +:+ id) = Some c.

(** The number of times [q] occurs among the [notebooks]. *)
Definition occurrences (q : Path) (notebooks : list Path) : nat :=
  length (filter (λ x, x = q) notebooks).

(** The document the driver writes: stripped under the clear option. *)
Definition to_write (then_clear : bool) (nb : notebook) : notebook :=
  if then_clear then strip_outputs nb else nb.

(** The world after one invocation of the client and the write of [nb]. *)
Definition written (w : world) (path : Path) (nb : notebook)
    (args : list arg) : world :=
  {| files := <[path := nb]> (files w); calls := calls w ++ [args] |}.

(** The ways in which the loop body can end for one notebook path. *)
Inductive outcome (E : env) (GH : Path) (then_clear : bool) (path : Path)
    (w : world) : (exn + unit) * world → Prop :=
| unreadable :
    files w !! path = None →
    outcome E GH then_clear path w (inl FileError, w)
| updated parsed ref :
    files w !! path = Some parsed →
    gist_url_from_notebook parsed = Some ref → gist_path ref →
    p_returncode (run_process E (calls w) (edit_command GH ref path)) = 0 →
    outcome E GH then_clear path w
      (inr tt, written w path (to_write then_clear parsed)
                 (edit_command GH ref path))
| update_failed parsed ref p :
    files w !! path = Some parsed →
    gist_url_from_notebook parsed = Some ref → gist_path ref →
    p = run_process E (calls w) (edit_command GH ref path) →
    p_returncode p ≠ 0 →
    outcome E GH then_clear path w
      (inl (CalledProcessError (p_returncode p) (edit_command GH ref path)
              (Some (p_stdout p)) None),
       called w (edit_command GH ref path))
| created parsed p id nb :
    files w !! path = Some parsed →
    gist_url_from_notebook parsed = None →
    p = run_process E (calls w) (create_command GH path) →
    p_returncode p = 0 →
    find_gist_id (p_stdout p) = Some id → gist_path id →
    prepend_gist_url
      (new_markdown_cell E (calls w ++ [create_command GH path]))
      ("https://gist.github.com/" +:+ id) parsed = inr nb →
    outcome E GH then_clear path w
      (inr tt, written w path (to_write then_clear nb)
                 (create_command GH path))
| no_constructor parsed p id e :
    files w !! path = Some parsed →
    gist_url_from_notebook parsed = None →
    p = run_process E (calls w) (create_command GH path) →
    p_returncode p = 0 →
    find_gist_id (p_stdout p) = Some id →
    prepend_gist_url
      (new_markdown_cell E (calls w ++ [create_command GH path]))
      ("https://gist.github.com/" +:+ id) parsed = inl e →
    outcome E GH then_clear path w (inl e, called w (create_command GH path))
| skipped parsed p :
    files w !! path = Some parsed →
    gist_url_from_notebook parsed = None →
    p = run_process E (calls w) (create_command GH path) →
    p_returncode p = 0 →
    find_gist_id (p_stdout p) = None →
    outcome E GH then_clear path w (inr tt, called w (create_command GH path))
| create_failed parsed p :
    files w !! path = Some parsed →
    gist_url_from_notebook parsed = None →
    p = run_process E (calls w) (create_command GH path) →
    p_returncode p ≠ 0 →
    outcome E GH then_clear path w
      (inl (CalledProcessError (p_returncode p) (create_command GH path)
              (Some (p_stdout p)) None),
       called w (create_command GH path)).

(** * Properties *)

Example find_gist_id_ex1 :
  find_gist_id "See https://gist.github.com/abc123 for details" = Some "abc123".
Proof. vm_compute. reflexivity. Qed.

Example find_gist_id_ex2 :
  find_gist_id "http://gist.github.com/user/abc-1_2!x" = Some "user/abc-1_2".
Proof. vm_compute. reflexivity. Qed.

Example find_gist_id_ex3 : find_gist_id "https://gist.gitlab.com/abc" = None.
Proof. vm_compute. reflexivity. Qed.

Example find_gist_url_ex1 :
  find_gist_url "See https://gist.github.com/abc123 for details"
  = Some "https://gist.github.com/abc123".
Proof. vm_compute. reflexivity. Qed.

Example strip_ex1 :
  strip ("  https://gist.github.com/xyz789 " +:+ String Re.newline "")
  = "https://gist.github.com/xyz789".
Proof. vm_compute. reflexivity. Qed.

Example name_ex1 : name demo_path = "demo.ipynb".
Proof. reflexivity. Qed.

(** A notebook without a reference, for which the client prints the URL
    of the gist it created, is written back with the announcement as its
    new first cell. *)
Example main_create_ex1 :
  let E := sample_env (mkProcess 0 "https://gist.github.com/xyz789" "") in
  let r := main E false [demo_path] (sample_world fresh_nb) in
  r.1 = inr tt ∧
  (fmap source ∘ cells) <$> files r.2 !! demo_path
  = Some [Some "Rendered at https://gist.github.com/xyz789"; Some "1 + 1"] ∧
  calls r.2 = [[APath gh_path; AStr "gist"; AStr "create"; APath demo_path]].
Proof. vm_compute. repeat split. Qed.

(** Without [gh] on the search path the run stops before any file. *)
Example main_no_client_ex1 :
  main (mkEnv None (λ _ _, mkProcess 0 "" "") (λ _, v4_new_markdown_cell))
    false
    [demo_path] (sample_world fresh_nb)
  = (inl (SystemExit 2), sample_world fresh_nb).
Proof. reflexivity. Qed.

(** ** Strings *)

Section strings.
Implicit Types s t u w : string.

Lemma app_cons c s t : String c s +:+ t = String c (s +:+ t).
Proof. reflexivity. Qed.

Lemma app_empty_l s : "" +:+ s = s.
Proof. reflexivity. Qed.

Lemma app_empty_r s : s +:+ "" = s.
Proof. induction s as [|c s IH]; [done|]. by rewrite app_cons, IH. Qed.

Lemma app_assoc s t u : (s +:+ t) +:+ u = s +:+ t +:+ u.
Proof. induction s as [|c s IH]; [done|]. by rewrite !app_cons, IH. Qed.

Lemma length_app s t :
  String.length (s +:+ t) = (String.length s + String.length t)%nat.
Proof. induction s as [|c s IH]; [done|]. rewrite app_cons. simpl. by rewrite IH. Qed.

Lemma substring_app_l s t : String.substring 0 (String.length s) (s +:+ t) = s.
Proof.
  induction s as [|c s IH].
  - by destruct t.
  - rewrite app_cons. simpl. by rewrite IH.
Qed.

Lemma taken_app s t : Re.taken (s +:+ t) t = s.
Proof.
  unfold Re.taken. rewrite length_app.
  replace (String.length s + String.length t - String.length t)%nat
    with (String.length s) by lia.
  apply substring_app_l.
Qed.

Lemma strip_prefix_app w s : strip_prefix w (w +:+ s) = Some s.
Proof.
  induction w as [|c w IH]; [done|].
  rewrite app_cons. simpl. by rewrite Ascii.eqb_refl.
Qed.

Lemma strip_prefix_Some w s t : strip_prefix w s = Some t ↔ s = w +:+ t.
Proof.
  split; [|intros ->; apply strip_prefix_app].
  revert s. induction w as [|c w IH]; intros s; simpl.
  - by intros [= ->].
  - destruct s as [|a s]; [done|].
    destruct (Ascii.eqb_spec a c) as [->|]; [|done].
    intros ->%IH. by rewrite app_cons.
Qed.

Lemma some_suffix_true P s :
  some_suffix P s = true ↔ ∃ pre post, s = pre +:+ post ∧ P post = true.
Proof.
  split.
  - induction s as [|c s IH]; simpl; intros [H|H]%orb_true_iff.
    + by exists "", "".
    + done.
    + by exists "", (String c s).
    + destruct (IH H) as (pre & post & -> & HP).
      by exists (String c pre), post.
  - intros (pre & post & -> & HP).
    induction pre as [|c pre IH].
    + rewrite app_empty_l. destruct post; simpl; by rewrite HP.
    + rewrite app_cons. simpl. rewrite IH. apply orb_true_r.
Qed.

Lemma contains_true w text :
  contains w text = true ↔ ∃ pre post, text = pre +:+ w +:+ post.
Proof.
  unfold contains. rewrite some_suffix_true. split.
  - intros (pre & s & -> & [t Ht]%bool_decide_eq_true).
    apply strip_prefix_Some in Ht as ->. eauto.
  - intros (pre & post & ->). exists pre, (w +:+ post). split; [done|].
    apply bool_decide_eq_true. rewrite strip_prefix_app. eauto.
Qed.

Lemma drop_while_app f s t :
  all_chars f s = true → starts_with f t = false →
  drop_while f (s +:+ t) = t.
Proof.
  induction s as [|c s IH].
  - intros _. destruct t as [|a t]; simpl; [done|]. by intros ->.
  - intros [Hc Hs]%andb_true_iff Ht. rewrite app_cons. simpl.
    rewrite Hc. auto.
Qed.

Lemma take_while_app f s t :
  all_chars f s = true → starts_with f t = false →
  take_while f (s +:+ t) = s.
Proof.
  induction s as [|c s IH].
  - intros _. destruct t as [|a t]; simpl; [done|]. by intros ->.
  - intros [Hc Hs]%andb_true_iff Ht. rewrite app_cons. simpl.
    rewrite Hc. f_equal. auto.
Qed.

Lemma take_drop_while f s : s = take_while f s +:+ drop_while f s.
Proof.
  induction s as [|c s IH]; simpl; [done|].
  destruct (f c); [|done]. by rewrite app_cons, <- IH.
Qed.

Lemma all_chars_take_while f s : all_chars f (take_while f s) = true.
Proof.
  induction s as [|c s IH]; simpl; [done|].
  destruct (f c) eqn:Hc; simpl; [|done]. by rewrite Hc, IH.
Qed.

Lemma starts_with_drop_while f s : starts_with f (drop_while f s) = false.
Proof.
  induction s as [|c s IH]; simpl; [done|].
  destruct (f c) eqn:Hc; simpl; done.
Qed.

End strings.

(** ** The matcher on the gist pattern *)

Section matcher.
Context {A : Type}.
Implicit Types (s t : string) (g : gmap string string).
Implicit Types k : string → gmap string string → option A.

Lemma rmatch_cat r1 r2 s g k :
  Re.rmatch (Re.Cat r1 r2) s g k
  = Re.rmatch r1 s g (λ s1 g1, Re.rmatch r2 s1 g1 k).
Proof. reflexivity. Qed.

Lemma rmatch_lit w s g k :
  Re.rmatch (Re.lit w) s g k
  = match strip_prefix w s with Some s' => k s' g | None => None end.
Proof.
  revert s. induction w as [|c w IH]; intros s; [done|].
  simpl. destruct s as [|a s]; [done|].
  destruct (Ascii.eqb a c); [apply IH|done].
Qed.

Lemma rmatch_dot s g k :
  Re.rmatch Re.Dot s g k
  = match s with
    | String a s' => if Ascii.eqb a Re.newline then None else k s' g
    | EmptyString => None
    end.
Proof. reflexivity. Qed.

Lemma rmatch_chr c s g k :
  Re.rmatch (Re.Chr c) s g k
  = match s with
    | String a s' => if Ascii.eqb a c then k s' g else None
    | EmptyString => None
    end.
Proof. reflexivity. Qed.

Lemma rmatch_opt r s g k :
  Re.rmatch (Re.Opt r) s g k
  = match Re.rmatch r s g k with Some x => Some x | None => k s g end.
Proof. reflexivity. Qed.

Lemma rmatch_group name r s g k :
  Re.rmatch (Re.Group name r) s g k
  = Re.rmatch r s g (λ s1 g1, k s1 (<[name := Re.taken s s1]> g1)).
Proof. reflexivity. Qed.

Lemma rmatch_plus_charset f s g k :
  Re.rmatch (Re.Plus (Re.CharSet f)) s g k
  = plus_loop f k (String.length s) s g.
Proof. reflexivity. Qed.

Lemma plus_loop_fail f k n s g :
  starts_with f s = false → plus_loop f k n s g = None.
Proof.
  destruct s as [|a s]; simpl; intros H; destruct n; simpl; by rewrite ?H.
Qed.

(** With a continuation that cannot fail, the greedy loop consumes the
    whole run of class characters. *)
Lemma plus_loop_greedy f k n s g :
  (∀ s' g', is_Some (k s' g')) →
  (String.length s ≤ n)%nat → starts_with f s = true →
  plus_loop f k n s g = k (drop_while f s) g.
Proof.
  intros Hk. revert s. induction n as [|n IH]; intros [|a s]; simpl;
    try done; try lia.
  intros Hlen Ha. rewrite Ha.
  assert ((String.length s <? S (String.length s))%nat = true) as ->
    by (apply Nat.ltb_lt; lia).
  destruct (starts_with f s) eqn:Hs.
  - fold (plus_loop f k). rewrite IH by (done || lia).
    by destruct (Hk (drop_while f s) g) as [x ->].
  - fold (plus_loop f k). rewrite plus_loop_fail by done.
    destruct s as [|b s]; simpl in *; [done|]. by rewrite Hs.
Qed.
End matcher.

Section gist_pattern.
Implicit Types (s t p rest text : string) (g : gmap string string).

Lemma gist_path_starts p rest :
  gist_path p → starts_with gist_id_char (p +:+ rest) = true.
Proof.
  intros [Hne Hall]. destruct p as [|c p]; [done|].
  rewrite app_cons. simpl in *. by apply andb_true_iff in Hall as [-> _].
Qed.

Lemma gist_path_take_while s :
  starts_with gist_id_char s = true → gist_path (take_while gist_id_char s).
Proof.
  intros Hs. split; [|apply all_chars_take_while].
  destruct s as [|c s]; simpl in *; [done|]. by rewrite Hs.
Qed.

Lemma rmatch_gist_id s :
  Re.rmatch (Re.Group "GistId" (Re.Plus (Re.CharSet gist_id_char))) s ∅
    (λ s' g, Some (s', g))
  = if starts_with gist_id_char s
    then Some (drop_while gist_id_char s,
               {["GistId" := take_while gist_id_char s]})
    else None.
Proof.
  rewrite rmatch_group, rmatch_plus_charset.
  destruct (starts_with gist_id_char s) eqn:Hs.
  - rewrite plus_loop_greedy by eauto. f_equal. f_equal.
    rewrite insert_empty. f_equal.
    rewrite (take_drop_while gist_id_char s) at 1. apply taken_app.
  - by apply plus_loop_fail.
Qed.

Lemma tail_match s rest g :
  Re.rmatch GIST_TAIL s ∅ (λ s' g', Some (s', g')) = Some (rest, g) ↔
  ∃ c1 c2 p,
    c1 ≠ Re.newline ∧ c2 ≠ Re.newline ∧
    s = "://gist" +:+ String c1 ("github" +:+ String c2 ("com/" +:+ p +:+ rest)) ∧
    gist_path p ∧ starts_with gist_id_char rest = false ∧
    g = {["GistId" := p]}.
Proof.
  unfold GIST_TAIL. rewrite rmatch_cat, rmatch_lit. split.
  - destruct (strip_prefix "://gist" s) as [s1|] eqn:H1; [|done].
    apply strip_prefix_Some in H1 as ->.
    rewrite rmatch_cat, rmatch_dot. destruct s1 as [|c1 s2]; [done|].
    destruct (Ascii.eqb_spec c1 Re.newline) as [|Hc1]; [done|].
    rewrite rmatch_cat, rmatch_lit.
    destruct (strip_prefix "github" s2) as [s3|] eqn:H3; [|done].
    apply strip_prefix_Some in H3 as ->.
    rewrite rmatch_cat, rmatch_dot. destruct s3 as [|c2 s4]; [done|].
    destruct (Ascii.eqb_spec c2 Re.newline) as [|Hc2]; [done|].
    rewrite rmatch_cat, rmatch_lit.
    destruct (strip_prefix "com/" s4) as [s5|] eqn:H5; [|done].
    apply strip_prefix_Some in H5 as ->.
    rewrite rmatch_gist_id.
    destruct (starts_with gist_id_char s5) eqn:Hs5; [|done].
    intros [= <- <-]. exists c1, c2, (take_while gist_id_char s5).
    rewrite <- take_drop_while.
    eauto 10 using gist_path_take_while, starts_with_drop_while.
  - intros (c1 & c2 & p & Hc1 & Hc2 & -> & Hp & Hrest & ->).
    rewrite strip_prefix_app, rmatch_cat, rmatch_dot.
    destruct (Ascii.eqb_spec c1 Re.newline); [done|].
    rewrite rmatch_cat, rmatch_lit, strip_prefix_app, rmatch_cat, rmatch_dot.
    destruct (Ascii.eqb_spec c2 Re.newline); [done|].
    rewrite rmatch_cat, rmatch_lit, strip_prefix_app, rmatch_gist_id.
    rewrite gist_path_starts by done.
    rewrite drop_while_app, take_while_app by (done || apply Hp). done.
Qed.
End gist_pattern.

Section gist_search.
Implicit Types (s t p rest text : string) (g : gmap string string).

Lemma match_here_spec s rest g :
  Re.match_here GIST_PATTERN s = Some (rest, g) ↔
  ∃ p, pattern_here s p rest ∧ g = {["GistId" := p]}.
Proof.
  unfold Re.match_here.
  change GIST_PATTERN
    with (Re.Cat (Re.lit "http") (Re.Cat (Re.Opt (Re.Chr "s")) GIST_TAIL)).
  rewrite rmatch_cat, rmatch_lit. split.
  - destruct (strip_prefix "http" s) as [s1|] eqn:H1; [|done].
    apply strip_prefix_Some in H1 as ->.
    rewrite rmatch_cat, rmatch_opt, rmatch_chr.
    destruct s1 as [|a s2].
    + by intros (?&?&?&?&?&?&?)%tail_match.
    + destruct (Ascii.eqb_spec a "s") as [->|Ha].
      * destruct (Re.rmatch GIST_TAIL s2 _ _) as [[r' g']|] eqn:Ht.
        -- intros [= -> ->].
           apply tail_match in Ht as (c1 & c2 & p & ? & ? & -> & ? & ? & ->).
           exists p. split; [|done]. exists "https", c1, c2. eauto 10.
        -- by intros (?&?&?&?&?&?&?)%tail_match.
      * intros (c1 & c2 & p & ? & ? & Hs & ? & ? & ->)%tail_match.
        exists p. split; [|done]. exists "http", c1, c2. rewrite Hs. eauto 10.
  - intros (p & (scheme & c1 & c2 & Hsch & Hc1 & Hc2 & -> & Hp & Hrest) & ->).
    assert (Re.rmatch GIST_TAIL
              ("://gist" +:+ String c1 ("github" +:+ String c2 ("com/" +:+ p +:+ rest)))
              ∅ (λ s' g', Some (s', g'))
            = Some (rest, {["GistId" := p]})) as Htail.
    { apply tail_match. eauto 10. }
    destruct Hsch as [-> | ->].
    + rewrite strip_prefix_app, rmatch_cat, rmatch_opt, rmatch_chr.
      exact Htail.
    + change ("https" +:+ ?x) with ("http" +:+ String "s" x).
      rewrite strip_prefix_app, rmatch_cat, rmatch_opt, rmatch_chr.
      rewrite Ascii.eqb_refl. by rewrite Htail.
Qed.

Lemma pattern_here_path s p rest : pattern_here s p rest → gist_path p.
Proof. by intros (?&?&?&?&?&?&?&?&?). Qed.

Lemma search_from_eq r pos text :
  Re.search_from r pos text
  = match Re.match_here r text with
    | Some (s', g) => Some (Re.mkMatch pos (Re.taken text s') g)
    | None =>
        match text with
        | EmptyString => None
        | String _ t => Re.search_from r (S pos) t
        end
    end.
Proof. by destruct text. Qed.

Lemma search_from_groups pos pos' text :
  Re.m_groups <$> Re.search_from GIST_PATTERN pos text
  = Re.m_groups <$> Re.search_from GIST_PATTERN pos' text.
Proof.
  revert pos pos'. induction text as [|a t IH]; intros pos pos';
    rewrite (search_from_eq _ pos), (search_from_eq _ pos');
    destruct (Re.match_here GIST_PATTERN _) as [[??]|]; simpl; auto.
Qed.

Lemma find_gist_id_groups text :
  find_gist_id text
  = (Re.m_groups <$> Re.search GIST_PATTERN text)
      ≫= (λ g : gmap string string, g !! "GistId").
Proof.
  unfold find_gist_id, Re.group. by destruct (Re.search _ _).
Qed.

Lemma find_gist_id_here s rest p :
  pattern_here s p rest → find_gist_id s = Some p.
Proof.
  intros H. unfold find_gist_id, Re.search.
  assert (Re.match_here GIST_PATTERN s = Some (rest, {["GistId" := p]})) as Hm
    by (apply match_here_spec; eauto).
  rewrite search_from_eq, Hm. apply lookup_singleton_eq.
Qed.

Lemma find_gist_id_next a t :
  Re.match_here GIST_PATTERN (String a t) = None →
  find_gist_id (String a t) = find_gist_id t.
Proof.
  intros Hm. rewrite !find_gist_id_groups. unfold Re.search.
  rewrite search_from_eq, Hm. by rewrite (search_from_groups 1 0).
Qed.

Lemma match_here_None s :
  Re.match_here GIST_PATTERN s = None ↔ ∀ p rest, ¬ pattern_here s p rest.
Proof.
  split.
  - intros Hm p rest H.
    assert (Re.match_here GIST_PATTERN s = Some (rest, {["GistId" := p]}))
      by (apply match_here_spec; eauto). congruence.
  - intros H. destruct (Re.match_here GIST_PATTERN s) as [[r g]|] eqn:Hm; [|done].
    apply match_here_spec in Hm as (p & Hp & _). by destruct (H p r).
Qed.

(** The extractor finds the leftmost occurrence of the pattern. *)
Lemma find_gist_id_Some text p :
  find_gist_id text = Some p ↔ first_pattern text p.
Proof.
  split.
  - induction text as [|a t IH].
    + done.
    + destruct (Re.match_here GIST_PATTERN (String a t)) as [[r g]|] eqn:Hm.
      * apply match_here_spec in Hm as (p' & Hp' & _).
        rewrite (find_gist_id_here _ _ _ Hp'). intros [= ->].
        exists "", (String a t), r. repeat split; [done|]. simpl. lia.
      * rewrite find_gist_id_next by done.
        intros (pre & s & rest & -> & Hs & Hleft)%IH.
        exists (String a pre), s, rest. repeat split; [done|].
        intros [|b pre'] s' p' rest' Heq Hs'.
        -- rewrite app_empty_l in Heq. subst s'.
           by eapply match_here_None in Hm.
        -- rewrite !app_cons in Heq. injection Heq as -> Heq.
           specialize (Hleft _ _ _ _ Heq Hs'). simpl. lia.
  - intros (pre & s & rest & -> & Hs & Hleft).
    induction pre as [|a pre IH].
    + rewrite app_empty_l. by eapply find_gist_id_here.
    + rewrite app_cons, find_gist_id_next.
      * apply IH. intros pre' s' p' rest' Heq Hs'.
        specialize (Hleft (String a pre') s' p' rest').
        rewrite !app_cons, Heq in Hleft. specialize (Hleft eq_refl Hs').
        simpl in Hleft. lia.
      * apply match_here_None. intros p' rest' H.
        specialize (Hleft "" _ _ _ eq_refl H). simpl in Hleft. lia.
Qed.

Lemma find_gist_id_None text :
  find_gist_id text = None ↔
  ¬ ∃ pre s p rest, text = pre +:+ s ∧ pattern_here s p rest.
Proof.
  split.
  - intros Hnone (pre & s & p & rest & -> & Hs).
    induction pre as [|a pre IH].
    + rewrite app_empty_l in Hnone.
      by rewrite (find_gist_id_here _ _ _ Hs) in Hnone.
    + apply IH. rewrite app_cons in Hnone.
      destruct (Re.match_here GIST_PATTERN (String a (pre +:+ s)))
        as [[r g]|] eqn:Hm.
      * apply match_here_spec in Hm as (p' & Hp' & _).
        by rewrite (find_gist_id_here _ _ _ Hp') in Hnone.
      * by rewrite find_gist_id_next in Hnone.
  - intros Hno. destruct (find_gist_id text) as [p|] eqn:Hf; [|done].
    apply find_gist_id_Some in Hf as (pre & s & rest & ? & ? & _).
    destruct Hno. eauto 10.
Qed.
End gist_search.

(** ** C1 and C10: the gist-reference extractor *)

Section extractor.
Implicit Types (s t p rest text : string).

Lemma gist_url_pattern_here s p rest :
  gist_url_here s p rest → pattern_here s p rest.
Proof.
  intros (scheme & Hsch & -> & Hp & Hrest).
  exists scheme, "."%char, "."%char. by split_and!.
Qed.

Lemma pattern_gist_url_here text pre s p rest :
  dots_literal text → text = pre +:+ s →
  pattern_here s p rest → gist_url_here s p rest.
Proof.
  intros Hdots -> (scheme & c1 & c2 & Hsch & _ & _ & -> & Hp & Hrest).
  rewrite <- app_assoc in Hdots.
  destruct (Hdots _ _ _ _ eq_refl) as [-> ->].
  exists scheme. by split_and!.
Qed.

Lemma dots_literal_here_true s :
  dots_literal_here s = true ↔
  ∃ c1 c2 post,
    s = "://gist" +:+ String c1 ("github" +:+ String c2 ("com/" +:+ post)) ∧
    ¬ (c1 = "."%char ∧ c2 = "."%char).
Proof.
  unfold dots_literal_here. split.
  - destruct (strip_prefix "://gist" s) as [[|c1 r1]|] eqn:H1; try done.
    apply strip_prefix_Some in H1 as ->.
    destruct (strip_prefix "github" r1) as [[|c2 r2]|] eqn:H2; try done.
    apply strip_prefix_Some in H2 as ->.
    destruct (strip_prefix "com/" r2) as [post|] eqn:H3; try done.
    apply strip_prefix_Some in H3 as ->.
    intros H. exists c1, c2, post. split; [done|]. intros [-> ->]. done.
  - intros (c1 & c2 & post & -> & Hne).
    rewrite !strip_prefix_app.
    destruct (Ascii.eqb_spec c1 "."), (Ascii.eqb_spec c2 "."); naive_solver.
Qed.

Lemma dots_literalb_spec text : dots_literalb text = true ↔ dots_literal text.
Proof.
  unfold dots_literalb, dots_literal. rewrite negb_true_iff.
  rewrite <- not_true_iff_false, some_suffix_true. split.
  - intros Hno pre c1 c2 post ->.
    destruct (decide (c1 = "."%char ∧ c2 = "."%char)) as [|Hne]; [done|].
    destruct Hno. eexists pre, _. split; [done|].
    apply dots_literal_here_true. eauto.
  - intros Hall (pre & s & -> & (c1 & c2 & post & -> & Hne)%dots_literal_here_true).
    apply Hne. eauto.
Qed.

Lemma first_pattern_gist_url text p :
  dots_literal text → first_pattern text p ↔ first_gist_url text p.
Proof.
  intros Hdots. split.
  - intros (pre & s & rest & Heq & Hs & Hleft).
    exists pre, s, rest. repeat split; eauto using pattern_gist_url_here.
    intros. eapply Hleft; eauto using gist_url_pattern_here.
  - intros (pre & s & rest & Heq & Hs & Hleft).
    exists pre, s, rest. repeat split; eauto using gist_url_pattern_here.
    intros. eapply Hleft; eauto using pattern_gist_url_here.
Qed.

(** C1, as amended.  On a text whose gist hosts are spelled with dots,
    the extractor returns the path of the leftmost URL
    [http://gist.github.com/<path>] or [https://gist.github.com/<path>],
    the path being the longest run of characters of [[a-zA-Z0-9/_-]]
    there, and it returns absent exactly when the text has no such URL. *)
Theorem find_gist_id_first_gist_url text :
  dots_literal text →
  (∀ p, find_gist_id text = Some p ↔ first_gist_url text p) ∧
  (find_gist_id text = None ↔ ¬ has_gist_url text).
Proof.
  intros Hdots. split.
  - intros p. rewrite find_gist_id_Some. by apply first_pattern_gist_url.
  - rewrite find_gist_id_None. unfold has_gist_url. split.
    + intros Hno (pre & s & p & rest & Heq & Hs).
      apply Hno. eauto 10 using gist_url_pattern_here.
    + intros Hno (pre & s & p & rest & Heq & Hs).
      apply Hno. eauto 10 using pattern_gist_url_here.
Qed.

(** C10.  The extractor answers absent or a non-empty string over
    [[a-zA-Z0-9/_-]]; so a reference is truthy exactly when it is present. *)
Theorem find_gist_id_absent_or_path text :
  (find_gist_id text = None ∨
   ∃ p, find_gist_id text = Some p ∧ p ≠ "" ∧ all_chars gist_id_char p = true) ∧
  truthy (find_gist_id text) = bool_decide (is_Some (find_gist_id text)).
Proof.
  destruct (find_gist_id text) as [p|] eqn:Hf; [|by split; [left|]].
  apply find_gist_id_Some in Hf as (pre & s & rest & _ & Hs & _).
  apply pattern_here_path in Hs as [Hne Hall].
  split; [right; eauto|]. destruct p; [done|].
  symmetry. apply bool_decide_eq_true. eauto.
Qed.
End extractor.

Lemma find_gist_id_first_gist_url_witness :
  dots_literal "See https://gist.github.com/abc123 for details" ∧
  first_gist_url "See https://gist.github.com/abc123 for details" "abc123".
Proof.
  assert (dots_literal "See https://gist.github.com/abc123 for details") as H
    by (apply dots_literalb_spec; vm_compute; reflexivity).
  split; [exact H|].
  apply (find_gist_id_first_gist_url _ H). vm_compute. reflexivity.
Defined.

(** The claim as the specification words it: the path of the first
    [https://gist.<host>/<path>], and absent on every text without one.
    A plain [http] URL has no such substring, and the extractor finds its
    path; a gist URL on another host is such a substring, and the
    extractor answers absent. *)
Lemma find_gist_id_http_counterexample :
  ((¬ ∃ p, spec_gist_url_in "http://gist.github.com/abc" p) ∧
   find_gist_id "http://gist.github.com/abc" = Some "abc") ∧
  (spec_gist_url_in "https://gist.gitlab.com/abc" "abc" ∧
   find_gist_id "https://gist.gitlab.com/abc" = None).
Proof.
  split; split; try (vm_compute; reflexivity).
  - intros (p & pre & host & post & Heq & _).
    assert (contains "https://gist." "http://gist.github.com/abc" = true) as H
      by (apply contains_true; eauto).
    vm_compute in H. discriminate.
  - exists "", "gitlab.com", "". split; [reflexivity|]. by split.
Qed.

(** ** C5: the notebook annotation reader *)

(** C5.  The reader answers absent on a notebook without cells and on a
    notebook whose first cell is not of markdown kind; otherwise it
    answers what the extractor finds in the source of the first cell. *)
Theorem gist_url_from_notebook_spec (nb : notebook) :
  (length (cells nb) = 0%nat → gist_url_from_notebook nb = None) ∧
  (∀ head, cells nb !! 0%nat = Some head →
     cell_type head ≠ Some "markdown" → gist_url_from_notebook nb = None) ∧
  (∀ head, cells nb !! 0%nat = Some head →
     cell_type head = Some "markdown" →
     gist_url_from_notebook nb = find_gist_id (default "" (source head))).
Proof.
  unfold gist_url_from_notebook. destruct (cells nb) as [|c l]; simpl.
  - by split_and!.
  - split_and!; [done|intros head [= ->] H; by rewrite decide_False
                |intros head [= ->] H; by rewrite decide_True].
Qed.

(** ** C2 and C8: stripping outputs *)

Section strip.
Implicit Types (md : gmap string json) (c : cell) (nb : notebook).

Lemma lookup_pop_fields fields md k :
  pop_fields fields md !! k = if decide (k ∈ fields) then None else md !! k.
Proof.
  unfold pop_fields. revert md.
  induction fields as [|f fs IH]; intros md; cbn [foldl].
  - case_decide; [set_solver|done].
  - rewrite IH. destruct (decide (k = f)) as [->|Hne].
    + rewrite lookup_delete_eq, (decide_True (P := f ∈ f :: fs)) by left.
      by case_decide.
    + rewrite lookup_delete_ne by done.
      destruct (decide (k ∈ fs)) as [H1|H1],
        (decide (k ∈ f :: fs)) as [H2|H2]; try done.
      * destruct H2. by right.
      * by apply elem_of_cons in H2 as [?|?].
Qed.

(** The order in which the fields are popped does not matter. *)
Lemma pop_fields_perm fields fields' md :
  fields ≡ₚ fields' → pop_fields fields md = pop_fields fields' md.
Proof.
  intros Hp. apply map_eq. intros k. rewrite !lookup_pop_fields.
  repeat case_decide; try done.
  - by rewrite Hp in *.
  - by rewrite <- Hp in *.
Qed.

Lemma pop_fields_idemp fields md :
  pop_fields fields (pop_fields fields md) = pop_fields fields md.
Proof.
  apply map_eq. intros k. rewrite !lookup_pop_fields. by case_decide.
Qed.

Lemma strip_cell_code c :
  cell_type c = Some "code" →
  strip_cell c =
    {| cell_type := cell_type c; source := source c;
       outputs := Some []; execution_count := Some None;
       metadata := pop_fields RM_META_FIELDS <$> metadata c;
       cell_rest := cell_rest c |}.
Proof. intros H. unfold strip_cell. by rewrite decide_True. Qed.

Lemma strip_cell_other c : cell_type c ≠ Some "code" → strip_cell c = c.
Proof. intros H. unfold strip_cell. by rewrite decide_False. Qed.

Lemma strip_cell_idemp c : strip_cell (strip_cell c) = strip_cell c.
Proof.
  destruct (decide (cell_type c = Some "code")) as [H|H].
  - rewrite (strip_cell_code c H).
    rewrite strip_cell_code by done. f_equal.
    destruct (metadata c) as [md|]; [|done].
    apply (f_equal Some), pop_fields_idemp.
  - by rewrite !(strip_cell_other c H).
Qed.

(** C2.  Stripping twice yields the document that stripping once yields. *)
Theorem strip_outputs_idemp nb :
  strip_outputs (strip_outputs nb) = strip_outputs nb.
Proof.
  unfold strip_outputs. simpl. f_equal.
  rewrite <- list_fmap_compose. apply list_fmap_ext.
  intros _ c _. apply strip_cell_idemp.
Qed.

(** C8.  Stripping keeps the number and order of the cells and the rest
    of the notebook.  A cell that is not of code kind is unchanged.  A
    code cell gets empty outputs and an execution counter bound to
    none; its metadata, when present, loses exactly the keys
    [collapsed] and [scrolled]; its other keys are unchanged. *)
Theorem strip_outputs_frame nb :
  length (cells (strip_outputs nb)) = length (cells nb) ∧
  nbformat (strip_outputs nb) = nbformat nb ∧
  nb_rest (strip_outputs nb) = nb_rest nb ∧
  ∀ i c, cells nb !! i = Some c →
    ∃ c', cells (strip_outputs nb) !! i = Some c' ∧
      (cell_type c ≠ Some "code" → c' = c) ∧
      (cell_type c = Some "code" →
         outputs c' = Some [] ∧
         execution_count c' = Some None ∧
         cell_type c' = cell_type c ∧
         source c' = source c ∧
         cell_rest c' = cell_rest c ∧
         (metadata c = None → metadata c' = None) ∧
         ∀ md, metadata c = Some md →
           ∃ md', metadata c' = Some md' ∧
             md' !! "collapsed" = None ∧ md' !! "scrolled" = None ∧
             ∀ k, k ≠ "collapsed" → k ≠ "scrolled" → md' !! k = md !! k).
Proof.
  unfold strip_outputs. simpl. split_and!; [apply length_fmap|done|done|].
  intros i c Hi. exists (strip_cell c). rewrite list_lookup_fmap, Hi.
  split_and!; [done|apply strip_cell_other|].
  intros Hcode. rewrite strip_cell_code by done. simpl.
  split_and!; try done.
  - intros Hmd. by rewrite Hmd.
  - intros md Hmd. rewrite Hmd. eexists. split; [done|].
    split_and!.
    + rewrite lookup_pop_fields, decide_True; [done|]. by left.
    + rewrite lookup_pop_fields, decide_True; [done|]. by right; left.
    + intros k H1 H2. rewrite lookup_pop_fields, decide_False; [done|].
      unfold RM_META_FIELDS. rewrite !elem_of_cons, elem_of_nil. tauto.
Qed.
End strip.

Lemma gist_url_from_notebook_spec_witness :
  gist_url_from_notebook
    {| cells := [mkCell (Some "markdown")
                   (Some "See https://gist.github.com/abc123 for details")
                   None None (Some ∅) ∅;
                 mkCell (Some "code") (Some "1 + 1") (Some [JNum 2])
                   (Some (Some 1)) (Some ∅) ∅];
       nbformat := Some 4; nb_rest := ∅ |} = Some "abc123".
Proof.
  etrans.
  - eapply (proj2 (proj2 (gist_url_from_notebook_spec _))); reflexivity.
  - vm_compute. reflexivity.
Defined.

Lemma strip_outputs_frame_witness :
  let code := mkCell (Some "code") (Some "1 + 1") (Some [JNum 2])
                (Some (Some 1))
                (Some {["collapsed" := JBool true; "tags" := JList []]}) ∅ in
  let nb := {| cells := [mkCell (Some "markdown") (Some "# Title") None None
                           (Some ∅) ∅; code];
               nbformat := Some 4; nb_rest := ∅ |} in
  ∃ c', cells (strip_outputs nb) !! 1%nat = Some c' ∧
        outputs c' = Some [] ∧ execution_count c' = Some None.
Proof.
  intros code nb.
  destruct (proj2 (proj2 (proj2 (strip_outputs_frame nb))) 1%nat code eq_refl)
    as (c' & Hc' & _ & Hcode).
  exists c'. split; [exact Hc'|].
  destruct (Hcode eq_refl) as (Ho & He & _). split; [exact Ho|exact He].
Defined.

(** ** C6 and C7: announcing the gist *)

Section announce.
Implicit Types (nb : notebook) (mk : markdown_ctor) (c : cell).

Lemma v4_new_markdown_cell_ok : markdown_ctor_ok v4_new_markdown_cell.
Proof.
  intros v src c. unfold v4_new_markdown_cell, nbformat_new_markdown_cell.
  destruct (v =? 4); [|done]. by intros [= <-].
Qed.



Lemma match_here_not_h a t :
  a ≠ "h"%char → Re.match_here GIST_PATTERN (String a t) = None.
Proof.
  intros Ha. apply match_here_None.
  intros p rest (scheme & c1 & c2 & [-> | ->] & _ & _ & Heq & _);
    injection Heq as -> _; done.
Qed.

Lemma find_gist_id_rendered id :
  gist_path id →
  find_gist_id ("Rendered at " +:+ "https://gist.github.com/" +:+ id) = Some id.
Proof.
  intros Hid. rewrite !app_cons, app_empty_l.
  rewrite !find_gist_id_next by (by apply match_here_not_h).
  apply find_gist_id_here with (rest := "").
  apply gist_url_pattern_here. exists "https".
  split_and!; [by right|by rewrite app_empty_r|done|done].
Qed.

End announce.





(** ** C3, C4 and C9: the external client and the driver *)

Section driver.
Variable E : env.
Implicit Types (w : world) (path GH : Path) (nb parsed : notebook).

Lemma find_gist_id_path text p : find_gist_id text = Some p → gist_path p.
Proof.
  intros (pre & s & rest & _ & Hs & _)%find_gist_id_Some.
  by eapply pattern_here_path.
Qed.

Lemma gist_url_from_notebook_path nb ref :
  gist_url_from_notebook nb = Some ref → gist_path ref.
Proof.
  unfold gist_url_from_notebook. destruct (cells nb) as [|c l]; [done|].
  case_decide; [|done]. apply find_gist_id_path.
Qed.

Lemma subprocess_run_check args out err w :
  subprocess_run E args true out err w =
    let p := run_process E (calls w) args in
    let o := if out then Some (p_stdout p) else None in
    let e := if err then Some (p_stderr p) else None in
    if p_returncode p =? 0
    then (inr (mkCompleted args (p_returncode p) o e), called w args)
    else (inl (CalledProcessError (p_returncode p) args o e), called w args).
Proof.
  unfold subprocess_run. simpl. by destruct (p_returncode _ =? 0).
Qed.

Lemma update_gist_file_eq GH gist_id path w :
  update_gist_file E GH gist_id path w =
    let args := [APath GH; AStr "gist"; AStr "edit"; AStr gist_id;
                 AStr "-f"; APath path; AStr (name path)] in
    let p := run_process E (calls w) args in
    if p_returncode p =? 0
    then (inr (mkCompleted args (p_returncode p) (Some (p_stdout p)) None),
          called w args)
    else (inl (CalledProcessError (p_returncode p) args
                 (Some (p_stdout p)) None), called w args).
Proof. unfold update_gist_file. by rewrite subprocess_run_check. Qed.

Lemma create_gist_eq GH paths w :
  create_gist E GH paths w =
    let args := [APath GH; AStr "gist"; AStr "create"] ++ (APath <$> paths) in
    let p := run_process E (calls w) args in
    if p_returncode p =? 0
    then (inr (find_gist_id (strip (p_stdout p))), called w args)
    else (inl (CalledProcessError (p_returncode p) args
                 (Some (p_stdout p)) None), called w args).
Proof.
  unfold create_gist, mbind, M_bind, bind. rewrite subprocess_run_check.
  simpl. by destruct (p_returncode _ =? 0).
Qed.

Lemma process_notebook_eq GH then_clear path w :
  process_notebook E GH then_clear path w =
    match files w !! path with
    | None => (inl FileError, w)
    | Some parsed =>
        let finish (r : option notebook) w' :=
          match r with
          | None => (inr tt, w')
          | Some nb =>
              nbformat_write (if then_clear then strip_outputs nb else nb)
                path w'
          end in
        match gist_url_from_notebook parsed with
        | Some (String _ _ as gist_id) =>
            match update_gist_file E GH ("https://gist.github.com/" +:+ gist_id)
                    path w with
            | (inl e, w') => (inl e, w')
            | (inr _, w') => finish (Some parsed) w'
            end
        | _ =>
            match create_gist E GH [path] w with
            | (inl e, w') => (inl e, w')
            | (inr (Some (String _ _ as gist_id)), w') =>
                match prepend_gist_url (new_markdown_cell E (calls w'))
                        ("https://gist.github.com/" +:+ gist_id) parsed with
                | inl e => (inl e, w')
                | inr nb => finish (Some nb) w'
                end
            | (inr _, w') => finish None w'
            end
        end
    end.
Proof.
  unfold process_notebook, mbind, M_bind, bind, nbformat_read.
  destruct (files w !! path) as [parsed|]; [|done].
  destruct (gist_url_from_notebook parsed) as [[|a ref]|].
  - destruct (create_gist E GH [path] w) as [[e|[[|b r]|]] w']; try done.
    unfold lift, get_calls. by destruct (prepend_gist_url _ _ _).
  - by destruct (update_gist_file _ _ _ _ _) as [[e|cp] w'].
  - destruct (create_gist E GH [path] w) as [[e|[[|b r]|]] w']; try done.
    unfold lift, get_calls. by destruct (prepend_gist_url _ _ _).
Qed.
End driver.

Section driver_claims.
Variable E : env.
Implicit Types (w : world) (path GH : Path) (nb parsed : notebook).

(** C3.  A notebook whose first cell carries the reference [ref] takes
    the update branch: the one command run is
    [gh gist edit https://gist.github.com/<ref> -f <path> <name>];
    when the client succeeds the document written is the document
    read, stripped only if the clear option is set, and when the client
    fails nothing is written. *)
Theorem process_notebook_update GH then_clear path w parsed ref :
  files w !! path = Some parsed →
  gist_url_from_notebook parsed = Some ref →
  let args := [APath GH; AStr "gist"; AStr "edit";
               AStr ("https://gist.github.com/" +:+ ref);
               AStr "-f"; APath path; AStr (name path)] in
  let p := run_process E (calls w) args in
  process_notebook E GH then_clear path w =
    (if p_returncode p =? 0
     then (inr tt,
           {| files := <[path := if then_clear then strip_outputs parsed
                                  else parsed]> (files w);
              calls := calls w ++ [args] |})
     else (inl (CalledProcessError (p_returncode p) args
                  (Some (p_stdout p)) None),
           {| files := files w; calls := calls w ++ [args] |})) ∧
  (then_clear = false →
   files (process_notebook E GH then_clear path w).2 = files w).
Proof.
  intros Hfile Href args p.
  assert (process_notebook E GH then_clear path w =
    (if p_returncode p =? 0
     then (inr tt,
           {| files := <[path := if then_clear then strip_outputs parsed
                                  else parsed]> (files w);
              calls := calls w ++ [args] |})
     else (inl (CalledProcessError (p_returncode p) args
                  (Some (p_stdout p)) None),
           {| files := files w; calls := calls w ++ [args] |}))) as Heq.
  { rewrite process_notebook_eq, Hfile, Href.
    destruct (gist_url_from_notebook_path _ _ Href) as [Hne _].
    destruct ref as [|a ref]; [done|].
    rewrite update_gist_file_eq. cbv zeta. fold args. fold p.
    by destruct (p_returncode p =? 0). }
  split; [exact Heq|].
  intros ->. rewrite Heq. destruct (p_returncode p =? 0); [|done].
  simpl. by apply insert_id.
Qed.

(** C4.  A notebook without a reference, for which the client succeeds
    and prints no gist URL, is skipped: the one command run is
    [gh gist create <path>], no file is written, no exception is
    raised, and the run goes on with the remaining paths. *)
Theorem process_notebook_skipped GH then_clear path w parsed :
  files w !! path = Some parsed →
  gist_url_from_notebook parsed = None →
  let args := [APath GH; AStr "gist"; AStr "create"; APath path] in
  let p := run_process E (calls w) args in
  p_returncode p = 0 →
  find_gist_id (strip (p_stdout p)) = None →
  let w' := {| files := files w; calls := calls w ++ [args] |} in
  process_notebook E GH then_clear path w = (inr tt, w') ∧
  (∀ rest, which_gh E = Some GH →
     main E then_clear (path :: rest) w = main E then_clear rest w').
Proof.
  intros Hfile Href args p Hrc Hout w'.
  assert (process_notebook E GH then_clear path w = (inr tt, w')) as Heq.
  { rewrite process_notebook_eq, Hfile, Href, create_gist_eq. cbv zeta.
    change ([APath GH; AStr "gist"; AStr "create"] ++ (APath <$> [path]))
      with args.
    fold p. rewrite Hrc. simpl. by rewrite Hout. }
  split; [exact Heq|].
  intros rest HGH. unfold main. rewrite HGH. simpl.
  unfold mbind at 1, M_bind, bind. by rewrite Heq.
Qed.

(** C9, as amended.  When the client exits with a non-zero status, the
    update and the create operation raise [CalledProcessError] with the
    exit status, the command line and the captured standard output; the
    standard error stream is not captured.  Neither operation touches a
    file, and a notebook whose processing raises is not written. *)
Theorem client_failure GH w :
  (∀ gist_id path,
     let args := [APath GH; AStr "gist"; AStr "edit"; AStr gist_id;
                  AStr "-f"; APath path; AStr (name path)] in
     let p := run_process E (calls w) args in
     p_returncode p ≠ 0 →
     update_gist_file E GH gist_id path w =
       (inl (CalledProcessError (p_returncode p) args (Some (p_stdout p)) None),
        {| files := files w; calls := calls w ++ [args] |})) ∧
  (∀ paths,
     let args := [APath GH; AStr "gist"; AStr "create"] ++ (APath <$> paths) in
     let p := run_process E (calls w) args in
     p_returncode p ≠ 0 →
     create_gist E GH paths w =
       (inl (CalledProcessError (p_returncode p) args (Some (p_stdout p)) None),
        {| files := files w; calls := calls w ++ [args] |})) ∧
  (∀ then_clear path e w',
     process_notebook E GH then_clear path w = (inl e, w') →
     files w' = files w).
Proof.
  split_and!.
  - intros gist_id path args p Hrc. subst args p.
    rewrite update_gist_file_eq. cbv zeta.
    apply Z.eqb_neq in Hrc. by rewrite Hrc.
  - intros paths args p Hrc. subst args p.
    rewrite create_gist_eq. cbv zeta.
    apply Z.eqb_neq in Hrc. by rewrite Hrc.
  - intros then_clear path e w'. rewrite process_notebook_eq.
    destruct (files w !! path) as [parsed|]; [|by intros [= _ <-]].
    cbv zeta.
    destruct (gist_url_from_notebook parsed) as [[|a ref]|].
    + rewrite create_gist_eq. cbv zeta.
      destruct (p_returncode _ =? 0); [|by intros [= _ <-]].
      destruct (find_gist_id _) as [[|b r]|]; try done.
      destruct (prepend_gist_url _ _ _); [by intros [= _ <-]|done].
    + rewrite update_gist_file_eq. cbv zeta.
      destruct (p_returncode _ =? 0); [done|by intros [= _ <-]].
    + rewrite create_gist_eq. cbv zeta.
      destruct (p_returncode _ =? 0); [|by intros [= _ <-]].
      destruct (find_gist_id _) as [[|b r]|]; try done.
      destruct (prepend_gist_url _ _ _); [by intros [= _ <-]|done].
Qed.
End driver_claims.

Lemma process_notebook_update_witness :
  let E := sample_env (mkProcess 0 "" "") in
  let w := sample_world announced_nb in
  process_notebook E gh_path false demo_path w =
    (inr tt,
     {| files := <[demo_path := announced_nb]> (files w);
        calls := [[APath gh_path; AStr "gist"; AStr "edit";
                   AStr "https://gist.github.com/abc123";
                   AStr "-f"; APath demo_path; AStr "demo.ipynb"]] |}).
Proof.
  intros E w.
  refine (proj1 (process_notebook_update E gh_path false demo_path w
                   announced_nb "abc123" _ _)).
  - apply lookup_singleton_eq.
  - vm_compute. reflexivity.
Defined.

Lemma process_notebook_skipped_witness :
  let E := sample_env (mkProcess 0 "nothing to show" "") in
  let w := sample_world fresh_nb in
  process_notebook E gh_path true demo_path w =
    (inr tt,
     {| files := files w;
        calls := [[APath gh_path; AStr "gist"; AStr "create";
                   APath demo_path]] |}).
Proof.
  intros E w.
  refine (proj1 (process_notebook_skipped E gh_path true demo_path w
                   fresh_nb _ _ _ _)).
  - apply lookup_singleton_eq.
  - reflexivity.
  - reflexivity.
  - vm_compute. reflexivity.
Defined.

Lemma client_failure_witness :
  let E := sample_env (mkProcess 1 "" "boom") in
  let w := sample_world announced_nb in
  update_gist_file E gh_path "https://gist.github.com/abc123" demo_path w =
    (inl (CalledProcessError 1
            [APath gh_path; AStr "gist"; AStr "edit";
             AStr "https://gist.github.com/abc123";
             AStr "-f"; APath demo_path; AStr "demo.ipynb"]
            (Some "") None),
     {| files := files w;
        calls := [[APath gh_path; AStr "gist"; AStr "edit";
                   AStr "https://gist.github.com/abc123";
                   AStr "-f"; APath demo_path; AStr "demo.ipynb"]] |}).
Proof.
  intros E w.
  refine (proj1 (client_failure E gh_path w) _ _ _).
  simpl. discriminate.
Defined.

(** The claim as the specification words it: the error carries the
    captured standard error stream.  The client writes [boom] to its
    standard error and exits with status 1; the error raised carries no
    standard error stream. *)
Lemma update_gist_file_stderr_counterexample :
  let E := sample_env (mkProcess 1 "" "boom") in
  let w := sample_world announced_nb in
  ∃ e w',
    update_gist_file E gh_path "https://gist.github.com/abc123" demo_path w
    = (inl e, w') ∧
    p_stderr (run_process E (calls w)
                [APath gh_path; AStr "gist"; AStr "edit";
                 AStr "https://gist.github.com/abc123";
                 AStr "-f"; APath demo_path; AStr "demo.ipynb"]) = "boom" ∧
    exn_stderr e ≠ Some "boom".
Proof.
  intros E w. eexists _, _. split; [reflexivity|]. split; [reflexivity|].
  simpl. discriminate.
Qed.


(** ** Further properties of the extractor *)

Section more_strings.
Implicit Types s t u w : string.

Lemma all_chars_app f s t :
  all_chars f (s +:+ t) = all_chars f s && all_chars f t.
Proof.
  induction s as [|c s IH]; [done|].
  rewrite app_cons. simpl. by rewrite IH, andb_assoc.
Qed.

Lemma snoc_cases s : s = "" ∨ ∃ s' a, s = s' +:+ String a "".
Proof.
  induction s as [|c s [->|(s' & a & ->)]]; [by left|right..].
  - by exists "", c.
  - by exists (String c s'), a.
Qed.

Lemma snoc_inj s t a b :
  s +:+ String a "" = t +:+ String b "" → s = t ∧ a = b.
Proof.
  revert t. induction s as [|c s IH]; intros [|d t]; rewrite ?app_cons,
    ?app_empty_l; intros Heq.
  - by injection Heq.
  - injection Heq as -> Heq. by destruct t.
  - injection Heq as -> Heq. by destruct s.
  - injection Heq as -> Heq. destruct (IH _ Heq) as [-> ->]. done.
Qed.

Lemma taken_empty s : Re.taken s "" = s.
Proof. rewrite <- (app_empty_r s) at 1. apply taken_app. Qed.

Lemma rev_app_eq s t : String.rev_app s t = String.rev s +:+ t.
Proof.
  unfold String.rev. revert t. induction s as [|c s IH]; intros t; [done|].
  simpl. rewrite (IH (String c "")), IH, app_assoc. done.
Qed.

Lemma rev_cons c s : String.rev (String c s) = String.rev s +:+ String c "".
Proof. unfold String.rev at 1. simpl. apply rev_app_eq. Qed.

Lemma rev_app_distr s t : String.rev (s +:+ t) = String.rev t +:+ String.rev s.
Proof.
  induction s as [|c s IH].
  - by rewrite app_empty_l, app_empty_r.
  - by rewrite app_cons, !rev_cons, IH, app_assoc.
Qed.

Lemma rev_involutive s : String.rev (String.rev s) = s.
Proof.
  induction s as [|c s IH]; [done|].
  by rewrite rev_cons, rev_app_distr, IH.
Qed.

Lemma all_chars_rev f s : all_chars f (String.rev s) = all_chars f s.
Proof.
  induction s as [|c s IH]; [done|].
  rewrite rev_cons, all_chars_app, IH. simpl. by rewrite andb_true_r, andb_comm.
Qed.

Lemma lstrip_split s :
  ∃ ws, s = ws +:+ lstrip s ∧ all_chars isspace ws = true.
Proof.
  induction s as [|c s (ws & Heq & Hws)]; [by exists ""|].
  simpl. destruct (isspace c) eqn:Hc.
  - exists (String c ws). rewrite app_cons, <- Heq. simpl. by rewrite Hc, Hws.
  - by exists "".
Qed.

(** Stripping removes a run of white space at either end. *)
Lemma strip_split s :
  ∃ ws1 ws2, s = ws1 +:+ strip s +:+ ws2 ∧
    all_chars isspace ws1 = true ∧ all_chars isspace ws2 = true.
Proof.
  destruct (lstrip_split s) as (ws1 & Hs & Hws1).
  destruct (lstrip_split (String.rev (lstrip s))) as (ws2 & Ht & Hws2).
  exists ws1, (String.rev ws2). split_and!; [|done|by rewrite all_chars_rev].
  rewrite Hs at 1. f_equal. unfold strip.
  rewrite <- (rev_involutive (lstrip s)) at 1. rewrite Ht at 1.
  apply rev_app_distr.
Qed.

Lemma isspace_not_gist_id_char c : isspace c = true → gist_id_char c = false.
Proof. destruct c as [[] [] [] [] [] [] [] []]; vm_compute; congruence. Qed.
End more_strings.

Section more_extractor.
Implicit Types (s t p rest text u : string).

Lemma url_prefix_app scheme c1 c2 t :
  url_prefix scheme c1 c2 +:+ t
  = scheme +:+ "://gist" +:+ String c1 ("github" +:+ String c2 ("com/" +:+ t)).
Proof. unfold url_prefix. by rewrite app_assoc. Qed.

Lemma pattern_here_prefix s p rest :
  pattern_here s p rest ↔
  ∃ u, pattern_prefix u ∧ s = u +:+ p +:+ rest ∧
       gist_path p ∧ starts_with gist_id_char rest = false.
Proof.
  split.
  - intros (scheme & c1 & c2 & ? & ? & ? & -> & ? & ?).
    exists (url_prefix scheme c1 c2). rewrite url_prefix_app.
    split_and!; try done. by exists scheme, c1, c2.
  - intros (u & (scheme & c1 & c2 & ? & ? & ? & ->) & -> & ? & ?).
    exists scheme, c1, c2. by rewrite url_prefix_app.
Qed.

Lemma search_from_spec pos text :
  match Re.search_from GIST_PATTERN pos text with
  | Some m =>
      ∃ pre s p rest,
        text = pre +:+ s ∧ pattern_here s p rest ∧
        Re.m_group0 m = Re.taken s rest ∧
        Re.m_groups m = {["GistId" := p]} ∧
        Re.m_start m = (pos + String.length pre)%nat ∧
        find_gist_id text = Some p
  | None => ∀ pre s p rest, text = pre +:+ s → ¬ pattern_here s p rest
  end.
Proof.
  revert pos. induction text as [|a t IH]; intros pos; rewrite search_from_eq.
  - destruct (Re.match_here GIST_PATTERN "") as [[r g]|] eqn:Hm; [done|].
    intros [|b pre] s p rest Heq; [|done]. rewrite app_empty_l in Heq. subst s.
    by apply match_here_None.
  - destruct (Re.match_here GIST_PATTERN (String a t)) as [[r g]|] eqn:Hm.
    + apply match_here_spec in Hm as (p & Hp & ->).
      exists "", (String a t), p, r. simpl.
      split_and!; try done. by eapply find_gist_id_here.
    + specialize (IH (S pos)).
      destruct (Re.search_from GIST_PATTERN (S pos) t) as [m|].
      * destruct IH as (pre & s & p & rest & -> & Hs & H0 & Hg & Hst & Hid).
        exists (String a pre), s, p, rest. split_and!; try done.
        -- rewrite Hst. simpl. lia.
        -- by rewrite find_gist_id_next.
      * intros [|b pre] s p rest Heq.
        -- rewrite app_empty_l in Heq. subst s. by apply match_here_None.
        -- rewrite app_cons in Heq. injection Heq as -> Heq.
           by apply (IH _ _ p rest Heq).
Qed.

(** X2.  The URL variant of the extractor finds a URL exactly when the
    path variant finds a path; the URL is a substring of the text and
    consists of the matched prefix followed by that path. *)
Theorem find_gist_url_spec text :
  match find_gist_url text with
  | Some u =>
      ∃ pre v p post,
        text = pre +:+ u +:+ post ∧ u = v +:+ p ∧ pattern_prefix v ∧
        find_gist_id text = Some p
  | None => find_gist_id text = None
  end.
Proof.
  unfold find_gist_url, find_gist_id, Re.search, Re.group.
  pose proof (search_from_spec 0 text) as H.
  destruct (Re.search_from GIST_PATTERN 0 text) as [m|]; [|done].
  destruct H as (pre & s & p & rest & -> & Hs & H0 & Hg & _ & _).
  apply pattern_here_prefix in Hs as (v & Hv & -> & Hp & Hrest).
  exists pre, v, p, rest. rewrite H0, Hg, <- (app_assoc v p rest), taken_app.
  split_and!;
    first [done | by rewrite app_assoc | apply lookup_singleton_eq].
Qed.

(** X3.  The URL found in a text can stand for the text: the extractor
    finds in it the path it finds in the text, and the URL variant finds
    the URL itself. *)
Theorem find_gist_url_roundtrip text u :
  find_gist_url text = Some u →
  find_gist_id u = find_gist_id text ∧ find_gist_url u = Some u.
Proof.
  unfold find_gist_url at 1, Re.search.
  pose proof (search_from_spec 0 text) as H.
  destruct (Re.search_from GIST_PATTERN 0 text) as [m|]; [|done].
  destruct H as (pre & s & p & rest & Htext & Hs & H0 & Hg & _ & Hid).
  apply pattern_here_prefix in Hs as (v & Hv & -> & Hp & Hrest).
  rewrite H0, <- (app_assoc v p rest), taken_app. intros [= <-].
  assert (pattern_here (v +:+ p) p "") as Hhere.
  { apply pattern_here_prefix. exists v. by rewrite app_empty_r. }
  split.
  - by rewrite (find_gist_id_here _ _ _ Hhere).
  - assert (Re.match_here GIST_PATTERN (v +:+ p) = Some ("", {["GistId" := p]}))
      as Hm by (apply match_here_spec; eauto).
    unfold find_gist_url, Re.search. rewrite search_from_eq, Hm. simpl.
    by rewrite taken_empty.
Qed.
End more_extractor.

Section more_search.
Implicit Types (s t p rest text u ws : string).

(** X1.  On every text the extractor returns the longest path after the
    leftmost occurrence of the pattern as it is written (scheme [http] or
    [https], each of the two dots standing for any character but a
    newline), and absent exactly when the pattern occurs nowhere. *)
Theorem find_gist_id_leftmost_pattern text :
  (∀ p, find_gist_id text = Some p ↔
     ∃ pre s rest,
       text = pre +:+ s ∧ pattern_here s p rest ∧
       ∀ pre' s' p' rest',
         text = pre' +:+ s' → pattern_here s' p' rest' →
         (String.length pre ≤ String.length pre')%nat) ∧
  (find_gist_id text = None ↔
     ∀ pre s p rest, text = pre +:+ s → ¬ pattern_here s p rest).
Proof.
  split; [intros p; apply find_gist_id_Some|].
  rewrite find_gist_id_None. split.
  - intros Hno pre s p rest Heq Hs. apply Hno. eauto 10.
  - intros Hno (pre & s & p & rest & Heq & Hs). by eapply Hno.
Qed.

Lemma pattern_here_snoc s p rest c :
  gist_id_char c = false →
  pattern_here s p rest →
  pattern_here (s +:+ String c "") p (rest +:+ String c "").
Proof.
  intros Hc (u & Hu & -> & Hp & Hrest)%pattern_here_prefix.
  apply pattern_here_prefix. exists u. rewrite !app_assoc.
  split_and!; try done. by destruct rest.
Qed.

Lemma pattern_here_unsnoc s p rest' c :
  gist_id_char c = false →
  pattern_here (s +:+ String c "") p rest' →
  ∃ rest, rest' = rest +:+ String c "" ∧ pattern_here s p rest.
Proof.
  intros Hc (u & Hu & Heq & Hp & Hrest)%pattern_here_prefix.
  destruct (snoc_cases rest') as [->|(rest & a & ->)].
  - destruct Hp as [Hne Hall].
    destruct (snoc_cases p) as [->|(p' & a & ->)]; [done|].
    rewrite app_empty_r, <- app_assoc in Heq.
    apply snoc_inj in Heq as [_ ->].
    rewrite all_chars_app in Hall. simpl in Hall.
    rewrite Hc in Hall. by rewrite andb_false_r in Hall.
  - rewrite <- !app_assoc in Heq. apply snoc_inj in Heq as [-> ->].
    exists rest. split; [done|]. apply pattern_here_prefix.
    exists u. split_and!; try done; [by rewrite app_assoc|].
    destruct rest; [done|]. by rewrite app_cons in Hrest.
Qed.

Lemma find_gist_id_snoc s c :
  gist_id_char c = false → find_gist_id (s +:+ String c "") = find_gist_id s.
Proof.
  intros Hc. induction s as [|a s IH].
  - rewrite app_empty_l, find_gist_id_next; [done|].
    apply match_here_None. intros p rest' H.
    destruct (pattern_here_unsnoc "" p rest' c Hc H) as (rest & _ & Hs).
    by eapply (match_here_None "").
  - rewrite app_cons.
    destruct (Re.match_here GIST_PATTERN (String a s)) as [[r g]|] eqn:Hm.
    + apply match_here_spec in Hm as (p & Hp & _).
      rewrite (find_gist_id_here _ _ _ Hp).
      apply (pattern_here_snoc _ _ _ c Hc) in Hp. rewrite app_cons in Hp.
      by rewrite (find_gist_id_here _ _ _ Hp).
    + rewrite !find_gist_id_next, IH; [done..|].
      apply match_here_None. intros p rest' H.
      change (String a (s +:+ String c "")) with (String a s +:+ String c "") in H.
      destruct (pattern_here_unsnoc _ p rest' c Hc H) as (rest & _ & Hs).
      by eapply match_here_None.
Qed.

Lemma find_gist_id_app_space s ws :
  all_chars isspace ws = true → find_gist_id (s +:+ ws) = find_gist_id s.
Proof.
  revert s. induction ws as [|c ws IH]; intros s; [by rewrite app_empty_r|].
  simpl. intros [Hc Hws]%andb_true_iff.
  change (String c ws) with (String c "" +:+ ws).
  rewrite <- app_assoc, IH, find_gist_id_snoc by done || by apply isspace_not_gist_id_char.
  done.
Qed.

Lemma find_gist_id_space_app ws s :
  all_chars isspace ws = true → find_gist_id (ws +:+ s) = find_gist_id s.
Proof.
  induction ws as [|c ws IH]; [done|]. simpl.
  intros [Hc Hws]%andb_true_iff. rewrite app_cons, find_gist_id_next; [auto|].
  apply match_here_not_h. intros ->. by vm_compute in Hc.
Qed.

Lemma find_gist_id_strip s : find_gist_id (strip s) = find_gist_id s.
Proof.
  destruct (strip_split s) as (ws1 & ws2 & Heq & H1 & H2).
  rewrite Heq at 2.
  by rewrite find_gist_id_space_app, find_gist_id_app_space.
Qed.
End more_search.

(** X4.  What [create_gist] returns does not depend on the stripping of
    the client's output: on exit status 0 it is what the extractor finds
    in the output as printed. *)
Theorem create_gist_unstripped (E : env) (GH : Path) (paths : list Path)
    (w : world) :
  let args := [APath GH; AStr "gist"; AStr "create"] ++ (APath <$> paths) in
  let p := run_process E (calls w) args in
  create_gist E GH paths w =
    if p_returncode p =? 0
    then (inr (find_gist_id (p_stdout p)),
          {| files := files w; calls := calls w ++ [args] |})
    else (inl (CalledProcessError (p_returncode p) args (Some (p_stdout p)) None),
          {| files := files w; calls := calls w ++ [args] |}).
Proof.
  intros args p. subst args p. rewrite create_gist_eq. cbv zeta.
  by rewrite find_gist_id_strip.
Qed.

(** ** Further properties of the mutators *)

Section more_mutators.
Implicit Types (md : gmap string json) (c : cell) (nb : notebook).
Implicit Types mk : markdown_ctor.

(** X5.  Stripping the outputs does not change what the reader finds: a
    reference in the first cell survives the clear option, and none
    appears. *)
Theorem gist_url_from_notebook_strip_outputs nb :
  gist_url_from_notebook (strip_outputs nb) = gist_url_from_notebook nb.
Proof.
  unfold gist_url_from_notebook, strip_outputs. cbn [cells].
  destruct (cells nb) as [|c l]; [done|]. rewrite fmap_cons.
  destruct (decide (cell_type c = Some "code")) as [Hc|Hc].
  - rewrite strip_cell_code by done. simpl.
    rewrite !decide_False; [done|congruence..].
  - by rewrite strip_cell_other.
Qed.

Lemma strip_cell_markdown c :
  cell_type c = Some "markdown" → strip_cell c = c.
Proof. intros H. apply strip_cell_other. congruence. Qed.

(** X6.  The clear option does not touch the announcement: when a
    notebook has been announced, stripping it leaves the announcement
    cell at index 0 as it is and strips the cells that were there
    before. *)
Theorem strip_outputs_prepend_gist_url rest url nb nb' :
  prepend_gist_url (nbformat_new_markdown_cell rest) url nb = inr nb' →
  ∃ c, cells nb' = c :: cells nb ∧
       cells (strip_outputs nb') = c :: cells (strip_outputs nb).
Proof.
  unfold prepend_gist_url, nbformat_new_markdown_cell.
  destruct (_ =? 4); [|done]. intros [= <-]. eexists. split; [done|].
  unfold strip_outputs. cbn [cells]. by rewrite fmap_cons, strip_cell_markdown.
Qed.

(** X7.  Popping the fields gives the same metadata in whatever order,
    and however often, the fields are visited: a key is gone exactly when
    it is one of the two fields, and every other key keeps its value. *)
Theorem pop_fields_any_order fields md :
  (∀ k, k ∈ fields ↔ k ∈ RM_META_FIELDS) →
  pop_fields fields md = pop_fields RM_META_FIELDS md ∧
  ∀ k, pop_fields fields md !! k
       = if decide (k = "collapsed" ∨ k = "scrolled") then None else md !! k.
Proof.
  intros Hsame.
  assert (∀ k, pop_fields fields md !! k
               = if decide (k = "collapsed" ∨ k = "scrolled") then None
                 else md !! k) as Hlook.
  { intros k. rewrite lookup_pop_fields.
    assert (k ∈ fields ↔ k = "collapsed" ∨ k = "scrolled") as Hk.
    { rewrite Hsame. unfold RM_META_FIELDS.
      rewrite !elem_of_cons, elem_of_nil. tauto. }
    destruct (decide (k ∈ fields)), (decide (k = "collapsed" ∨ k = "scrolled"));
      tauto. }
  split; [|exact Hlook].
  apply map_eq. intros k. rewrite Hlook, lookup_pop_fields.
  destruct (decide (k ∈ RM_META_FIELDS)) as [Hin|Hin],
    (decide (k = "collapsed" ∨ k = "scrolled")) as [Hk|Hk]; try done;
    unfold RM_META_FIELDS in Hin; rewrite !elem_of_cons, elem_of_nil in Hin;
    tauto.
Qed.

Lemma strip_cell_fixed c : strip_cell c = c ↔ clean_cell c.
Proof.
  unfold clean_cell. split.
  - intros Heq Hcode. rewrite strip_cell_code in Heq by done.
    destruct c as [ty src out ec md rest].
    cbn [cell_type source outputs execution_count metadata cell_rest] in *.
    injection Heq as Ho He Hm. split_and!; try done.
    intros m ->.
    change (Some (pop_fields RM_META_FIELDS m) = Some m) in Hm.
    injection Hm as Hm. rewrite <- Hm. split.
    + by rewrite lookup_delete_ne, lookup_delete_eq.
    + by rewrite lookup_delete_eq.
  - intros Hclean. destruct (decide (cell_type c = Some "code")) as [Hc|Hc];
      [|by apply strip_cell_other].
    rewrite strip_cell_code by done.
    destruct (Hclean Hc) as (Ho & He & Hm).
    destruct c as [ty src out ec md rest].
    cbn [cell_type source outputs execution_count metadata cell_rest] in *.
    subst out ec. f_equal. destruct md as [m|]; [|done].
    destruct (Hm m eq_refl) as [H1 H2].
    change (Some (delete "scrolled" (delete "collapsed" m)) = Some m).
    by rewrite (delete_id m "collapsed"), delete_id.
Qed.

(** X8.  Stripping leaves a notebook as it is exactly when every code
    cell already has empty outputs, an execution counter bound to none
    and neither [collapsed] nor [scrolled] in its metadata; a notebook
    without code cells is such a notebook. *)
Theorem strip_outputs_fixed nb :
  (strip_outputs nb = nb ↔ Forall clean_cell (cells nb)) ∧
  (Forall (λ c, cell_type c ≠ Some "code") (cells nb) → strip_outputs nb = nb).
Proof.
  assert (strip_outputs nb = nb ↔ Forall clean_cell (cells nb)) as Hiff.
  { destruct nb as [l v r]. unfold strip_outputs. simpl. split.
    - intros [= Heq]. induction l as [|c l IH]; [done|].
      rewrite fmap_cons in Heq. injection Heq as Hc Hl.
      constructor; [by apply strip_cell_fixed|auto].
    - intros Hall. f_equal. induction Hall as [|c l Hc _ IH]; [done|].
      rewrite fmap_cons. f_equal; [by apply strip_cell_fixed|done]. }
  split; [exact Hiff|].
  intros Hall. apply Hiff. eapply Forall_impl; [exact Hall|].
  intros c Hc Hcode. done.
Qed.
End more_mutators.

Lemma strip_outputs_prepend_gist_url_witness :
  ∃ nb' c,
    prepend_gist_url (nbformat_new_markdown_cell {["id" := JStr "1a2b3c4d"]})
      "https://gist.github.com/abc123" fresh_nb = inr nb' ∧
    cells nb' = c :: cells fresh_nb ∧
    cells (strip_outputs nb') = c :: cells (strip_outputs fresh_nb).
Proof.
  destruct (strip_outputs_prepend_gist_url {["id" := JStr "1a2b3c4d"]}
              "https://gist.github.com/abc123" fresh_nb _ eq_refl)
    as (c & H1 & H2).
  eexists _, c. split; [reflexivity|]. split; [exact H1|exact H2].
Defined.

Lemma pop_fields_any_order_witness :
  pop_fields ["scrolled"; "collapsed"; "scrolled"]
    {["collapsed" := JBool true; "tags" := JList []]}
  = pop_fields RM_META_FIELDS
      {["collapsed" := JBool true; "tags" := JList []]}.
Proof.
  refine (proj1 (pop_fields_any_order ["scrolled"; "collapsed"; "scrolled"] _ _)).
  intros k. unfold RM_META_FIELDS. rewrite !elem_of_cons, elem_of_nil. tauto.
Defined.

Lemma strip_outputs_fixed_witness :
  strip_outputs
    {| cells := [mkCell (Some "markdown") (Some "# Title") None None (Some ∅) ∅;
                 mkCell (Some "raw") (Some "text") (Some [JNum 1]) None None ∅];
       nbformat := Some 4; nb_rest := ∅ |}
  = {| cells := [mkCell (Some "markdown") (Some "# Title") None None (Some ∅) ∅;
                 mkCell (Some "raw") (Some "text") (Some [JNum 1]) None None ∅];
       nbformat := Some 4; nb_rest := ∅ |}.
Proof.
  apply (proj2 (strip_outputs_fixed _)). simpl.
  repeat constructor; discriminate.
Defined.


(** ** Further properties of the driver *)

Section more_driver.
Variable E : env.
Implicit Types (w : world) (path GH : Path) (nb parsed : notebook).

(** Every run of the loop body ends in one of the seven ways. *)
Lemma process_notebook_outcome GH then_clear path w :
  outcome E GH then_clear path w (process_notebook E GH then_clear path w).
Proof.
  rewrite process_notebook_eq.
  destruct (files w !! path) as [parsed|] eqn:Hfile; [|by constructor].
  cbv zeta.
  destruct (gist_url_from_notebook parsed) as [ref|] eqn:Href.
  - pose proof (gist_url_from_notebook_path _ _ Href) as Hp.
    destruct ref as [|a ref]; [by destruct Hp|].
    rewrite update_gist_file_eq. cbv zeta.
    fold (edit_command GH (String a ref) path).
    destruct (Z.eqb_spec
      (p_returncode (run_process E (calls w)
         (edit_command GH (String a ref) path))) 0) as [Hrc|Hrc].
    + exact (updated E GH then_clear path w parsed _ Hfile Href Hp Hrc).
    + exact (update_failed E GH then_clear path w parsed _ _ Hfile Href Hp
               eq_refl Hrc).
  - rewrite create_gist_eq. cbv zeta.
    change ([APath GH; AStr "gist"; AStr "create"] ++ (APath <$> [path]))
      with (create_command GH path).
    rewrite find_gist_id_strip.
    destruct (Z.eqb_spec
      (p_returncode (run_process E (calls w) (create_command GH path))) 0)
      as [Hrc|Hrc];
      [|exact (create_failed E GH then_clear path w parsed _ Hfile Href
                 eq_refl Hrc)].
    destruct (find_gist_id (p_stdout _)) as [id|] eqn:Hid;
      [|exact (skipped E GH then_clear path w parsed _ Hfile Href eq_refl
                 Hrc Hid)].
    pose proof (find_gist_id_path _ _ Hid) as Hp.
    destruct id as [|a id]; [by destruct Hp|].
    destruct (prepend_gist_url _ _ _) as [e|nb] eqn:Hnb.
    + exact (no_constructor E GH then_clear path w parsed _ _ e Hfile Href
               eq_refl Hrc Hid Hnb).
    + exact (created E GH then_clear path w parsed _ _ nb Hfile Href
               eq_refl Hrc Hid Hp Hnb).
Qed.

Lemma prepend_gist_url_inr mk url nb nb' :
  prepend_gist_url mk url nb = inr nb' →
  ∃ c, mk (Z.min 4 (default 4 (nbformat nb))) ("Rendered at " +:+ url) = Some c ∧
       nb' = {| cells := c :: cells nb; nbformat := nbformat nb;
                nb_rest := nb_rest nb |}.
Proof.
  unfold prepend_gist_url. destruct (mk _ _) as [c|]; [|done].
  intros [= <-]. eauto.
Qed.

Lemma for_each_cons (body : Path → M unit) path rest w :
  for_each body (path :: rest) w
  = match body path w with
    | (inl e, w') => (inl e, w')
    | (inr _, w') => for_each body rest w'
    end.
Proof. reflexivity. Qed.

Lemma for_each_app (body : Path → M unit) l1 l2 w :
  for_each body (l1 ++ l2) w
  = match for_each body l1 w with
    | (inl e, w') => (inl e, w')
    | (inr _, w') => for_each body l2 w'
    end.
Proof.
  revert w. induction l1 as [|x l1 IH]; intros w; [done|].
  rewrite <- app_comm_cons, !for_each_cons.
  destruct (body x w) as [[e|[]] w']; [done|apply IH].
Qed.

(** X9.  A run on a list of notebooks followed by more notebooks is the
    run on the first list and then, from the world it leaves, the run on
    the others; when the first run raises, the whole run raises the same
    exception in the same world, and none of the others is read,
    uploaded or written. *)
Theorem main_app then_clear l1 l2 w :
  main E then_clear (l1 ++ l2) w
  = match main E then_clear l1 w with
    | (inl e, w') => (inl e, w')
    | (inr _, w') => main E then_clear l2 w'
    end.
Proof.
  unfold main. destruct (which_gh E) as [GH|]; [|done].
  apply for_each_app.
Qed.
End more_driver.

Section more_runs.
Variable E : env.
Implicit Types (w : world) (path GH : Path) (nb parsed : notebook).

Lemma process_notebook_create_eq GH then_clear path w parsed id c :
  files w !! path = Some parsed →
  gist_url_from_notebook parsed = None →
  p_returncode (run_process E (calls w) (create_command GH path)) = 0 →
  find_gist_id (p_stdout (run_process E (calls w) (create_command GH path)))
    = Some id →
  new_markdown_cell E (calls w ++ [create_command GH path])
    (Z.min 4 (default 4 (nbformat parsed)))
    ("Rendered at " +:+ "https://gist.github.com/" +:+ id) = Some c →
  process_notebook E GH then_clear path w
  = (inr tt,
     written w path
       (to_write then_clear
          {| cells := c :: cells parsed; nbformat := nbformat parsed;
             nb_rest := nb_rest parsed |})
       (create_command GH path)).
Proof.
  intros Hfile Href Hrc Hid Hc.
  pose proof (process_notebook_outcome E GH then_clear path w) as H.
  inversion H as [ | | | parsed' p id' nb Hf Hr -> _ Hid' _ Hnb | parsed' p id' e Hf Hr -> _ Hid' Hnb | | ];
    simplify_eq.
  - apply prepend_gist_url_inr in Hnb as (c' & Hc' & ->). by simplify_eq.
  - unfold prepend_gist_url in Hnb. by rewrite Hc in Hnb.
Qed.

Lemma gist_url_from_notebook_to_write then_clear c l v r id :
  cell_type c = Some "markdown" →
  source c = Some ("Rendered at " +:+ "https://gist.github.com/" +:+ id) →
  gist_path id →
  gist_url_from_notebook
    (to_write then_clear {| cells := c :: l; nbformat := v; nb_rest := r |})
  = Some id.
Proof.
  intros Hty Hsrc Hid.
  assert (gist_url_from_notebook {| cells := c :: l; nbformat := v; nb_rest := r |}
          = Some id) as Hplain.
  { unfold gist_url_from_notebook. cbn [cells].
    rewrite decide_True, Hsrc by done. by apply find_gist_id_rendered. }
  destruct then_clear; [|done].
  unfold to_write, strip_outputs. cbn [cells nbformat nb_rest].
  by rewrite fmap_cons, strip_cell_markdown.
Qed.

Lemma to_write_strip_outputs nb :
  strip_outputs (strip_outputs nb) = strip_outputs nb.
Proof.
  unfold strip_outputs. cbn [cells nbformat nb_rest]. f_equal.
  rewrite <- list_fmap_compose. apply list_fmap_ext.
  intros _ c _. apply strip_cell_idemp.
Qed.

(** X10.  A notebook without a reference, for which the client succeeds
    and prints a gist URL, is written back with the announcement of
    [https://gist.github.com/<id>] as its new first cell (stripped under
    the clear option), after the one command [gh gist create <path>];
    the notebook written carries the reference [id]. *)
Theorem process_notebook_create GH then_clear path w parsed id c :
  files w !! path = Some parsed →
  gist_url_from_notebook parsed = None →
  p_returncode (run_process E (calls w) (create_command GH path)) = 0 →
  find_gist_id (p_stdout (run_process E (calls w) (create_command GH path)))
    = Some id →
  markdown_ctor_ok (new_markdown_cell E (calls w ++ [create_command GH path])) →
  new_markdown_cell E (calls w ++ [create_command GH path])
    (Z.min 4 (default 4 (nbformat parsed)))
    ("Rendered at " +:+ "https://gist.github.com/" +:+ id) = Some c →
  let nb := to_write then_clear
              {| cells := c :: cells parsed; nbformat := nbformat parsed;
                 nb_rest := nb_rest parsed |} in
  process_notebook E GH then_clear path w
  = (inr tt,
     {| files := <[path := nb]> (files w);
        calls := calls w ++ [[APath GH; AStr "gist"; AStr "create"; APath path]] |}) ∧
  length (cells nb) = S (length (cells parsed)) ∧
  gist_url_from_notebook nb = Some id.
Proof.
  intros Hfile Href Hrc Hid Hok Hc nb. split_and!.
  - exact (process_notebook_create_eq GH then_clear path w parsed id c
             Hfile Href Hrc Hid Hc).
  - unfold nb, to_write, strip_outputs. destruct then_clear; simpl; [|done].
    by rewrite length_fmap.
  - destruct (Hok _ _ _ Hc) as [Hty Hsrc].
    apply gist_url_from_notebook_to_write; try done.
    by eapply find_gist_id_path.
Qed.

(** X11.  Running the loop body again on a notebook it has just
    announced takes the update branch: when the client succeeds the one
    command is [gh gist edit https://gist.github.com/<id> -f <path> <name>]
    and the files are left as the first run wrote them, with or without
    the clear option. *)
Theorem process_notebook_rerun GH then_clear path w parsed id c :
  files w !! path = Some parsed →
  gist_url_from_notebook parsed = None →
  p_returncode (run_process E (calls w) (create_command GH path)) = 0 →
  find_gist_id (p_stdout (run_process E (calls w) (create_command GH path)))
    = Some id →
  markdown_ctor_ok (new_markdown_cell E (calls w ++ [create_command GH path])) →
  new_markdown_cell E (calls w ++ [create_command GH path])
    (Z.min 4 (default 4 (nbformat parsed)))
    ("Rendered at " +:+ "https://gist.github.com/" +:+ id) = Some c →
  let w1 := (process_notebook E GH then_clear path w).2 in
  p_returncode (run_process E (calls w1) (edit_command GH id path)) = 0 →
  process_notebook E GH then_clear path w1
  = (inr tt,
     {| files := files w1;
        calls := calls w1 ++ [[APath GH; AStr "gist"; AStr "edit";
                               AStr ("https://gist.github.com/" +:+ id);
                               AStr "-f"; APath path; AStr (name path)]] |}).
Proof.
  intros Hfile Href Hrc Hid Hok Hc w1.
  assert (w1 = written w path
       (to_write then_clear
          {| cells := c :: cells parsed; nbformat := nbformat parsed;
             nb_rest := nb_rest parsed |})
       (create_command GH path)) as Hw1.
  { unfold w1. by erewrite process_notebook_create_eq. }
  clearbody w1. subst w1. intros Hrc2.
  set (nb := to_write then_clear _) in *.
  assert (gist_url_from_notebook nb = Some id) as Hnb.
  { destruct (Hok _ _ _ Hc) as [Hty Hsrc].
    apply gist_url_from_notebook_to_write; try done.
    by eapply find_gist_id_path. }
  assert (to_write then_clear nb = nb) as Hidem.
  { unfold nb, to_write. destruct then_clear; [|done].
    apply to_write_strip_outputs. }
  pose proof (process_notebook_outcome E GH then_clear path
                (written w path nb (create_command GH path))) as H.
  inversion H as [Hf | parsed' ref Hf Hr _ Hrc' | parsed' ref p Hf Hr _ -> Hrc' | parsed' p id' nb' Hf Hr | parsed' p id' e Hf Hr | parsed' p Hf Hr | parsed' p Hf Hr ];
    cbn [written files] in Hf; rewrite lookup_insert_eq in Hf; simplify_eq.
  unfold written. cbn [files calls]. by rewrite Hidem, insert_insert_eq.
Qed.
End more_runs.

Section more_invariants.
Variable E : env.
Implicit Types (w : world) (path GH q : Path) (nb parsed : notebook).

Lemma cells_to_write then_clear nb :
  cells (to_write then_clear nb)
  = (if then_clear then fmap strip_cell else id) (cells nb) ∧
  nbformat (to_write then_clear nb) = nbformat nb ∧
  nb_rest (to_write then_clear nb) = nb_rest nb.
Proof. by destruct then_clear. Qed.

(** What one run of the loop body does to the files: nothing, or one
    write over the notebook it read. *)
Lemma process_notebook_files GH then_clear path w :
  let r := process_notebook E GH then_clear path w in
  files r.2 = files w ∨
  ∃ old nb new,
    r.1 = inr tt ∧ files w !! path = Some old ∧
    files r.2 = <[path := nb]> (files w) ∧
    nbformat nb = nbformat old ∧ nb_rest nb = nb_rest old ∧
    cells nb = (if then_clear then fmap strip_cell else id) (new ++ cells old) ∧
    Forall (announcement E (nbformat old)) new ∧ (length new ≤ 1)%nat.
Proof.
  intros r. unfold r.
  destruct (process_notebook_outcome E GH then_clear path w)
    as [ | parsed ref Hf | | parsed p id nb Hf _ _ _ _ Hid Hnb | | | ];
    try (by left); right.
  - destruct (cells_to_write then_clear parsed) as (Hc & Hv & Hr).
    exists parsed, (to_write then_clear parsed), []. split_and!; try done.
    cbn [length]. lia.
  - apply prepend_gist_url_inr in Hnb as (c & Hmk & ->).
    destruct (cells_to_write then_clear
      {| cells := c :: cells parsed; nbformat := nbformat parsed;
         nb_rest := nb_rest parsed |}) as (Hc & Hv & Hr).
    exists parsed, (to_write then_clear
      {| cells := c :: cells parsed; nbformat := nbformat parsed;
         nb_rest := nb_rest parsed |}), [c]. split_and!; try done.
    repeat constructor. by eexists _, id.
Qed.

(** What one run of the loop body does to the command log: nothing, and
    then it raises, or the one command of its notebook. *)
Lemma process_notebook_calls GH then_clear path w :
  let r := process_notebook E GH then_clear path w in
  (calls r.2 = calls w ∧ ∃ e, r.1 = inl e) ∨
  (∃ args, calls r.2 = calls w ++ [args] ∧ command_for GH path args).
Proof.
  intros r. unfold r.
  destruct (process_notebook_outcome E GH then_clear path w)
    as [ | parsed ref | parsed ref | | | | ].
  - left. eauto.
  - right. exists (edit_command GH ref path). split; [done|]. right. eauto.
  - right. exists (edit_command GH ref path). split; [done|]. right. eauto.
  - right. exists (create_command GH path). split; [done|]. by left.
  - right. exists (create_command GH path). split; [done|]. by left.
  - right. exists (create_command GH path). split; [done|]. by left.
  - right. exists (create_command GH path). split; [done|]. by left.
Qed.

(** An exception of the loop body is never [SystemExit]; a failure of
    the client carries a non-zero status, the command that was run last,
    its standard output and no standard error. *)
Lemma process_notebook_exn GH then_clear path w e :
  let r := process_notebook E GH then_clear path w in
  r.1 = inl e →
  files r.2 = files w ∧
  match e with
  | SystemExit _ => False
  | CalledProcessError rc args out err =>
      rc ≠ 0 ∧ last (calls r.2) = Some args ∧ is_Some out ∧ err = None
  | FileError => files w !! path = None ∧ calls r.2 = calls w
  | NbformatError => True
  end.
Proof.
  intros r. unfold r.
  destruct (process_notebook_outcome E GH then_clear path w)
    as [ | | parsed ref p _ _ _ -> Hrc | | parsed p id e' Hf Hr -> Hrc Hid Hnb
       | | parsed p _ _ -> Hrc ]; try done; intros [= <-]; split; try done.
  - cbn [snd called calls]. rewrite last_snoc. by eauto.
  - unfold prepend_gist_url in Hnb. destruct (new_markdown_cell E _ _); [done|].
    by injection Hnb as <-.
  - cbn [snd called calls]. rewrite last_snoc. by eauto.
Qed.
End more_invariants.

Section more_main.
Variable E : env.
Implicit Types (w : world) (path GH q : Path) (nb parsed : notebook).
Implicit Types l : list Path.

(** X12.  A run never creates or removes a notebook file, and it leaves
    every file that is not among its arguments as it was. *)
Theorem main_files_frame then_clear l w :
  dom (files (main E then_clear l w).2) = dom (files w) ∧
  ∀ q, q ∉ l → files (main E then_clear l w).2 !! q = files w !! q.
Proof.
  unfold main. destruct (which_gh E) as [GH|]; [|done].
  revert w. induction l as [|x l IH]; intros w; [done|].
  rewrite for_each_cons.
  pose proof (process_notebook_files E GH then_clear x w) as Hstep.
  destruct (process_notebook E GH then_clear x w) as [[e|[]] w1];
    cbn [fst snd] in *.
  - destruct Hstep as [->|(old & nb & new & ? & _)]; done.
  - destruct (IH w1) as [Hdom Hout].
    destruct Hstep as [Hsame|(old & nb & new & _ & Hold & Hnew & _)].
    + rewrite Hdom, Hsame. split; [done|].
      intros q [_ Hq]%not_elem_of_cons. by rewrite Hout, Hsame.
    + rewrite Hdom, Hnew. split; [by apply dom_insert_lookup_L|].
      intros q [Hne Hq]%not_elem_of_cons.
      by rewrite Hout, Hnew, lookup_insert_ne.
Qed.

(** X13.  A run only appends to the command log.  What it appends is,
    in the order of the arguments, one command for each of the first [k]
    notebooks, [k] being all of them when the run ends without an
    exception: the command of the [i]-th notebook is
    [gh gist create <path>] or
    [gh gist edit https://gist.github.com/<ref> -f <path> <name>] for the
    [i]-th path and a well-formed reference. *)
Theorem main_calls then_clear l w :
  ∃ cs,
    calls (main E then_clear l w).2 = calls w ++ cs ∧
    (length cs ≤ length l)%nat ∧
    ((main E then_clear l w).1 = inr tt → length cs = length l) ∧
    ∀ GH, which_gh E = Some GH →
      Forall2 (command_for GH) (take (length cs) l) cs.
Proof.
  unfold main. destruct (which_gh E) as [GH|].
  2:{ exists []. rewrite app_nil_r. split_and!; try done. cbn. lia. }
  revert w. induction l as [|x l IH]; intros w.
  { exists []. rewrite app_nil_r. by split_and!. }
  rewrite for_each_cons.
  pose proof (process_notebook_calls E GH then_clear x w) as Hstep.
  destruct (process_notebook E GH then_clear x w) as [[e|[]] w1];
    cbn [fst snd] in *.
  - destruct Hstep as [[Hsame _]|(args & Hargs & Hcmd)].
    + exists []. rewrite app_nil_r.
      split; [done|]. split; [cbn; lia|]. split; [done|].
      intros. constructor.
    + exists [args].
      split; [done|]. split; [cbn; lia|]. split; [done|].
      intros GH' [= <-]. cbn [length take]. constructor; [done|].
      rewrite take_0. constructor.
  - destruct Hstep as [[_ [e He]]|(args & Hargs & Hcmd)]; [done|].
    destruct (IH w1) as (cs & Hcs & Hlen & Hok & Hall).
    exists (args :: cs). split_and!.
    + by rewrite Hcs, Hargs, <- (assoc_L (++)).
    + cbn [length]. lia.
    + intros Hr. cbn [length]. by rewrite Hok.
    + intros GH' [= <-]. cbn [length take]. constructor; [done|by apply Hall].
Qed.

Lemma strip_cell_fmap_app (new : list cell) (l' l : list cell) :
  strip_cell <$> (new ++ (strip_cell <$> (l' ++ l)))
  = strip_cell <$> ((new ++ l') ++ l).
Proof.
  assert (∀ k : list cell,
            strip_cell <$> (strip_cell <$> k) = strip_cell <$> k) as Hidem.
  { intros k. rewrite <- list_fmap_compose. apply list_fmap_ext.
    intros _ c _. apply strip_cell_idemp. }
  by rewrite !fmap_app, !Hidem, (assoc_L (++)).
Qed.

Lemma occurrences_cons q x l :
  occurrences q (x :: l)
  = if decide (x = q) then S (occurrences q l) else occurrences q l.
Proof.
  unfold occurrences. destruct (decide (x = q)) as [H|H].
  - by rewrite filter_cons_True.
  - by rewrite filter_cons_False.
Qed.

(** X14.  A run keeps the cells of every notebook file: after the run
    the cells of the file are announcements followed by the cells it
    had, in their order, all of them stripped when the clear option is
    set.  An announcement is a cell that [nbformat] constructed with the
    source [Rendered at https://gist.github.com/<id>], and there is at
    most one for each time the path occurs among the arguments.  The
    format version and the other keys of the notebook are kept. *)
Theorem main_keeps_cells then_clear l w q nb :
  files w !! q = Some nb →
  ∃ nb' new,
    files (main E then_clear l w).2 !! q = Some nb' ∧
    nbformat nb' = nbformat nb ∧ nb_rest nb' = nb_rest nb ∧
    Forall (announcement E (nbformat nb)) new ∧
    (length new ≤ occurrences q l)%nat ∧
    ((nb' = nb ∧ new = []) ∨
     cells nb'
     = (if then_clear then fmap strip_cell else id) (new ++ cells nb)).
Proof.
  unfold main. destruct (which_gh E) as [GH|].
  2:{ intros Hq. exists nb, [].
      split_and!; [exact Hq|done|done|constructor|cbn; lia|by left]. }
  revert w nb. induction l as [|x l IH]; intros w nb Hq.
  { exists nb, [].
    split_and!; [exact Hq|done|done|constructor|cbn; lia|by left]. }
  rewrite for_each_cons, occurrences_cons.
  pose proof (process_notebook_files E GH then_clear x w) as Hstep.
  destruct (process_notebook E GH then_clear x w) as [[e|[]] w1];
    cbn [fst snd] in *.
  - destruct Hstep as [Hfiles|(old & nb1 & new & ? & _)]; [|done].
    exists nb, [].
    split_and!; [by rewrite Hfiles|done|done|constructor|cbn; lia|by left].
  - destruct Hstep
      as [Hfiles|(old & nb1 & new & _ & Hold & Hnew & Hv & Hr & Hc & Hann & Hlen)].
    { destruct (IH w1 nb) as (nb' & new & ? & ? & ? & ? & ? & ?);
        [by rewrite Hfiles|].
      exists nb', new. split_and!; try done. case_decide; lia. }
    destruct (decide (x = q)) as [->|Hne].
    2:{ apply IH. by rewrite Hnew, lookup_insert_ne. }
    simplify_eq.
    destruct (IH w1 nb1) as (nb' & new' & Hnb' & Hv' & Hr' & Hann' & Hlen' & Hcells).
    { by rewrite Hnew, lookup_insert_eq. }
    exists nb', (new' ++ new). split_and!; try done; try congruence.
    + apply Forall_app. split; [|done]. by rewrite <- Hv.
    + rewrite List.length_app. lia.
    + right. destruct Hcells as [[-> ->]|Hc']; [done|].
      rewrite Hc', Hc. destruct then_clear.
      * apply strip_cell_fmap_app.
      * unfold id. by rewrite (assoc_L (++)).
Qed.

(** X15.  Two exceptions of a run.  [SystemExit] is raised only when
    [gh] is not found, with status 2 and before anything is run or
    written.  A [CalledProcessError] carries a non-zero status, the
    command that was run last, its standard output and no standard
    error. *)
Theorem main_exn then_clear l w e :
  (main E then_clear l w).1 = inl e →
  match e with
  | SystemExit code =>
      code = 2 ∧ which_gh E = None ∧ (main E then_clear l w).2 = w
  | CalledProcessError rc args out err =>
      rc ≠ 0 ∧ last (calls (main E then_clear l w).2) = Some args ∧
      is_Some out ∧ err = None
  | _ => True
  end.
Proof.
  unfold main. destruct (which_gh E) as [GH|]; [|by intros [= <-]].
  revert w. induction l as [|x l IH]; intros w; [done|].
  rewrite for_each_cons.
  pose proof (process_notebook_exn E GH then_clear x w) as Hstep.
  destruct (process_notebook E GH then_clear x w) as [[e1|[]] w1];
    cbn [fst snd] in *.
  - intros [= <-]. destruct (Hstep e1 eq_refl) as [Hfiles He].
    by destruct e1 as [rc args out err| | |code].
  - intros He. specialize (IH w1 He).
    destruct e as [rc args out err| | |code]; try done.
    by destruct IH as (_ & ? & _).
Qed.
End more_main.

Section more_branch.
Variable E : env.
Implicit Types (w : world) (path GH : Path) (parsed : notebook).

(** X16.  For a file that is read as a notebook with its cells at top
    level, the loop body runs exactly one command, whatever happens
    next: the edit of the gist whose reference the reader finds in the
    notebook, or the creation of a gist when the reader finds none. *)
Theorem process_notebook_command GH then_clear path w parsed :
  files w !! path = Some parsed →
  calls (process_notebook E GH then_clear path w).2
  = calls w ++
    [match gist_url_from_notebook parsed with
     | Some ref =>
         [APath GH; AStr "gist"; AStr "edit";
          AStr ("https://gist.github.com/" +:+ ref);
          AStr "-f"; APath path; AStr (name path)]
     | None => [APath GH; AStr "gist"; AStr "create"; APath path]
     end].
Proof.
  intros Hfile.
  destruct (process_notebook_outcome E GH then_clear path w)
    as [Hf | p0 ref Hf Hr | p0 ref p Hf Hr | p0 p id nb Hf Hr
       | p0 p id e Hf Hr | p0 p Hf Hr | p0 p Hf Hr];
    simplify_eq; by rewrite Hr.
Qed.
End more_branch.

(** ** Sample runs of the further properties *)

Lemma process_notebook_command_witness :
  let E := sample_env (mkProcess 1 "" "boom") in
  calls (process_notebook E gh_path true demo_path
           (sample_world announced_nb)).2
  = [] ++
    [match gist_url_from_notebook announced_nb with
     | Some ref =>
         [APath gh_path; AStr "gist"; AStr "edit";
          AStr ("https://gist.github.com/" +:+ ref);
          AStr "-f"; APath demo_path; AStr (name demo_path)]
     | None => [APath gh_path; AStr "gist"; AStr "create"; APath demo_path]
     end].
Proof.
  intros E.
  apply (process_notebook_command E gh_path true demo_path
           (sample_world announced_nb) announced_nb).
  apply lookup_singleton_eq.
Defined.

Lemma find_gist_url_roundtrip_witness :
  find_gist_id "https://gist.github.com/abc123"
  = find_gist_id "See https://gist.github.com/abc123 for details" ∧
  find_gist_url "https://gist.github.com/abc123"
  = Some "https://gist.github.com/abc123".
Proof.
  apply (find_gist_url_roundtrip
           "See https://gist.github.com/abc123 for details").
  vm_compute. reflexivity.
Defined.

Lemma process_notebook_create_witness :
  let E := sample_env (mkProcess 0 "https://gist.github.com/xyz789" "") in
  ∃ nb,
    process_notebook E gh_path true demo_path (sample_world fresh_nb)
    = (inr tt,
       {| files := <[demo_path := nb]> (files (sample_world fresh_nb));
          calls := [[APath gh_path; AStr "gist"; AStr "create";
                     APath demo_path]] |}) ∧
    length (cells nb) = 2%nat ∧
    gist_url_from_notebook nb = Some "xyz789".
Proof.
  intros E. eexists.
  refine (process_notebook_create E gh_path true demo_path
            (sample_world fresh_nb) fresh_nb "xyz789" _ _ _ _ _ _ _).
  - apply lookup_singleton_eq.
  - reflexivity.
  - reflexivity.
  - vm_compute. reflexivity.
  - exact v4_new_markdown_cell_ok.
  - reflexivity.
Defined.

Lemma process_notebook_rerun_witness :
  let E := sample_env (mkProcess 0 "https://gist.github.com/xyz789" "") in
  let w1 := (process_notebook E gh_path false demo_path
               (sample_world fresh_nb)).2 in
  process_notebook E gh_path false demo_path w1
  = (inr tt,
     {| files := files w1;
        calls := calls w1 ++ [[APath gh_path; AStr "gist"; AStr "edit";
                               AStr "https://gist.github.com/xyz789";
                               AStr "-f"; APath demo_path;
                               AStr (name demo_path)]] |}).
Proof.
  intros E w1.
  refine (process_notebook_rerun E gh_path false demo_path
            (sample_world fresh_nb) fresh_nb "xyz789" _ _ _ _ _ _ _ _).
  - apply lookup_singleton_eq.
  - reflexivity.
  - reflexivity.
  - vm_compute. reflexivity.
  - exact v4_new_markdown_cell_ok.
  - reflexivity.
  - reflexivity.
Defined.

Lemma main_keeps_cells_witness :
  let E := sample_env (mkProcess 0 "https://gist.github.com/xyz789" "") in
  ∃ nb' new,
    files (main E false [demo_path; demo_path] (sample_world fresh_nb)).2
      !! demo_path = Some nb' ∧
    nbformat nb' = nbformat fresh_nb ∧ nb_rest nb' = nb_rest fresh_nb ∧
    Forall (announcement E (nbformat fresh_nb)) new ∧
    (length new ≤ occurrences demo_path [demo_path; demo_path])%nat ∧
    ((nb' = fresh_nb ∧ new = []) ∨ cells nb' = id (new ++ cells fresh_nb)).
Proof.
  intros E.
  apply (main_keeps_cells E false [demo_path; demo_path]
           (sample_world fresh_nb) demo_path fresh_nb).
  apply lookup_singleton_eq.
Defined.

Lemma main_exn_witness :
  let E := sample_env (mkProcess 1 "" "boom") in
  let r := main E false [demo_path] (sample_world fresh_nb) in
  1 ≠ 0 ∧
  last (calls r.2)
  = Some [APath gh_path; AStr "gist"; AStr "create"; APath demo_path] ∧
  is_Some (Some "") ∧ @None string = None.
Proof.
  intros E r.
  apply (main_exn E false [demo_path] (sample_world fresh_nb)
           (CalledProcessError 1
              [APath gh_path; AStr "gist"; AStr "create"; APath demo_path]
              (Some "") None)).
  vm_compute. reflexivity.
Defined.
